(** * WebAct: action dispatch, action history and grounding prompt

    A shallow embedding of [action_manager.py] (class [ActionManager]) and
    [prompt_manager.py] (class [PromptManager]).

    Python objects are modelled by the inductive [pyval]; the automation
    layer (Playwright locators and pages) by [handle], an object that answers
    every primitive call either normally or by raising.  Methods are
    computations in a state-and-exception monad over [world]: the fields of
    the [ActionManager] instance, the records sent to the logger, the
    primitive calls that reached a handle, and the file system. *)

From Stdlib Require Import String Ascii List Bool Arith Lia.
From Stdlib Require Import ZArith Permutation.
Import ListNotations.
Open Scope string_scope.
Open Scope list_scope.

Set Implicit Arguments.

(** ** Python values *)

(** An exception instance: its class, [str(e)], and whether the class
    derives from [Exception].  Playwright's errors, [ValueError],
    [AttributeError] and the [OSError] family do; [KeyboardInterrupt],
    [SystemExit], [GeneratorExit] and [asyncio.CancelledError] derive from
    [BaseException] only. *)
Record exn : Type := mkException {
  exn_class : string;
  exn_msg : string;
  exn_is_Exception : bool
}.

(** An instance of a class that derives from [Exception]. *)
Definition mkExn (class msg : string) : exn := mkException class msg true.

(** The primitive calls [perform_action] makes on [selector]. *)
Inductive prim : Type :=
| Click
| Hover
| Fill (text : string)
| Evaluate (script : string)
| KeyboardPress (key : string)
| ContextNewPage
| Close
| GoBack
| GoForward
| Goto (url : string)
| Press (key : string)
| SelectOption (v : string).

(** An object of the automation layer.  [h_respond p] is [None] when the call
    [p] returns and [Some e] when it raises [e] (a stale element, a timeout,
    a method the object does not have).  Such objects define neither
    [__bool__] nor [__len__], so they are truthy. *)
Record handle : Type := mkHandle {
  h_str : string;
  h_respond : prim -> option exn
}.

#[warnings="-register-all"]
Inductive pyval : Type :=
| PNone
| PBool (b : bool)
| PStr (s : string)
| PList (l : list pyval)
| PObj (h : handle).

(** A [dict] with string keys, as an association list (first binding wins). *)
Definition pydict : Type := list (string * pyval).

Fixpoint dict_get (d : pydict) (k : string) (default : pyval) : pyval :=
  match d with
  | [] => default
  | (k', v) :: d' => if String.eqb k' k then v else dict_get d' k default
  end.

(** [bool(x)] *)
Definition py_truthy (v : pyval) : bool :=
  match v with
  | PNone => false
  | PBool b => b
  | PStr s => negb (String.eqb s "")
  | PList l => match l with [] => false | _ => true end
  | PObj _ => true
  end.

Definition dict_truthy (d : pydict) : bool :=
  match d with [] => false | _ => true end.

(** [type(x).__name__] *)
Definition py_type_name (v : pyval) : string :=
  match v with
  | PNone => "NoneType"
  | PBool _ => "bool"
  | PStr _ => "str"
  | PList _ => "list"
  | PObj _ => "object"
  end.

(** An optional string argument ([None] or a [str]). *)
Definition optstr_truthy (v : option string) : bool :=
  match v with
  | Some s => negb (String.eqb s "")
  | None => false
  end.

Definition optstr_str (v : option string) : string :=
  match v with
  | Some s => s
  | None => "None"
  end.

(** [x == "LITERAL"] for an optional string [x] *)
Definition name_is (x : option string) (lit : string) : bool :=
  match x with
  | Some s => String.eqb s lit
  | None => false
  end.

(** The line feed and the double quote. *)
Definition nl : string := String (ascii_of_nat 10) EmptyString.
Definition dq : string := String (ascii_of_nat 34) EmptyString.

(** [sep.join(l)] *)
Fixpoint join (sep : string) (l : list string) : string :=
  match l with
  | [] => ""
  | [x] => x
  | x :: l' => x ++ sep ++ join sep l'
  end.

Section Formatting.

(** [repr] of a [str] inside a list display: Python's quoting and escaping
    rules, which depend on the Unicode database, are not part of the
    repository and are taken as given. *)
Variable str_repr : string -> string.

Fixpoint py_repr (v : pyval) : string :=
  match v with
  | PNone => "None"
  | PBool true => "True"
  | PBool false => "False"
  | PStr s => str_repr s
  | PList l => "[" ++ join ", " (map py_repr l) ++ "]"
  | PObj h => h_str h
  end.

(** [str(x)], what an f-string field renders *)
Definition py_str (v : pyval) : string :=
  match v with
  | PStr s => s
  | _ => py_repr v
  end.

End Formatting.

(** ** The world and the monad *)

Inductive level : Type := INFO | WARNING | ERROR.

(** A request that the operating system may refuse for a reason outside the
    tree of names: permissions, a read-only or a full device. *)
Inductive os_request : Type :=
| ReqMkdir (key : string)
| ReqOpen (key : string)
| ReqWrite (key text : string).

(** The file system, POSIX and without links: the directories and the
    regular files with their contents, each under its resolved name (see
    [key_of]), and what the operating system refuses.  Relative names are
    relative to the working directory; the working directory, the root and
    the ancestors of the working directory always exist. *)
Record filesystem : Type := mkFilesystem {
  fs_dirs : list string;
  fs_files : list (string * string);
  fs_refuses : os_request -> option exn
}.

(** A file system that refuses nothing. *)
Definition mkFs (dirs : list string) (files : list (string * string))
    : filesystem :=
  mkFilesystem dirs files (fun _ => None).

(** [config]: the two settings [ActionManager] reads.  [cfg_basic] is the
    table under ["basic"], when present; inside it [save_file_dir], when
    present. *)
Record config : Type := mkConfig {
  cfg_action_space : option pyval;
  cfg_basic : option (option string)
}.

Record world : Type := mkWorld {
  am_config : config;
  action_space : pyval;
  taken_actions : list string;
  logged : list (level * string);
  calls : list prim;
  fs : filesystem
}.

Inductive outcome (A : Type) : Type :=
| Return (a : A)
| Raise (e : exn).
Arguments Return {A} a.
Arguments Raise {A} e.

Definition M (A : Type) : Type := world -> outcome A * world.

Definition ret {A} (a : A) : M A := fun w => (Return a, w).

Definition raise {A} (e : exn) : M A := fun w => (Raise e, w).

Definition bind {A B} (m : M A) (k : A -> M B) : M B :=
  fun w =>
    match m w with
    | (Return a, w') => k a w'
    | (Raise e, w') => (Raise e, w')
    end.

(** [try: body  except Exception as e: handler(e)]: an exception that does
    not derive from [Exception] is not caught. *)
Definition try_except {A} (body : M A) (handler : exn -> M A) : M A :=
  fun w =>
    match body w with
    | (Return a, w') => (Return a, w')
    | (Raise e, w') =>
        if exn_is_Exception e then handler e w' else (Raise e, w')
    end.

Notation "x <- m ;; k" := (bind m (fun x => k))
  (at level 61, m at next level, right associativity).
Notation "m ;;; k" := (bind m (fun _ => k))
  (at level 61, right associativity).

Definition set_logged (l : list (level * string)) (w : world) : world :=
  mkWorld (am_config w) (action_space w) (taken_actions w) l (calls w) (fs w).

Definition set_calls (c : list prim) (w : world) : world :=
  mkWorld (am_config w) (action_space w) (taken_actions w) (logged w) c (fs w).

Definition set_taken_actions (t : list string) (w : world) : world :=
  mkWorld (am_config w) (action_space w) t (logged w) (calls w) (fs w).

Definition set_action_space (a : pyval) (w : world) : world :=
  mkWorld (am_config w) a (taken_actions w) (logged w) (calls w) (fs w).

Definition set_fs (f : filesystem) (w : world) : world :=
  mkWorld (am_config w) (action_space w) (taken_actions w) (logged w) (calls w) f.

(** [self.logger.info(msg)] and its siblings *)
Definition logger (lv : level) (msg : string) : M unit :=
  fun w => (Return tt, set_logged (logged w ++ [(lv, msg)]) w).

(** The first attribute a primitive call looks up on its receiver. *)
Definition prim_attr (p : prim) : string :=
  match p with
  | Click => "click"
  | Hover => "hover"
  | Fill _ => "fill"
  | Evaluate _ => "evaluate"
  | KeyboardPress _ => "keyboard"
  | ContextNewPage => "context"
  | Close => "close"
  | GoBack => "go_back"
  | GoForward => "go_forward"
  | Goto _ => "goto"
  | Press _ => "press"
  | SelectOption _ => "select_option"
  end.

Definition AttributeError (v : pyval) (attr : string) : exn :=
  mkExn "AttributeError"
        ("'" ++ py_type_name v ++ "' object has no attribute '" ++ attr ++ "'").

Definition ValueError (msg : string) : exn := mkExn "ValueError" msg.

(** [selector.m(args)]: on a handle the call is made (and recorded) and the
    handle answers; on any other value the attribute lookup fails before any
    call is made. *)
Definition call_method (selector : pyval) (p : prim) : M unit :=
  match selector with
  | PObj h =>
      fun w =>
        (match h_respond h p with
         | None => Return tt
         | Some e => Raise e
         end,
         set_calls (calls w ++ [p]) w)
  | _ => raise (AttributeError selector (prim_attr p))
  end.

(** ** [ActionManager] *)

Definition default_action_space : list string :=
  ["CLICK"; "PRESS ENTER"; "HOVER"; "SCROLL UP";
   "SCROLL DOWN"; "NEW TAB"; "CLOSE TAB";
   "GO BACK"; "GO FORWARD"; "TERMINATE";
   "SELECT"; "TYPE"; "GOTO"; "MEMORIZE"].

Definition no_value_op : list string :=
  ["CLICK"; "PRESS ENTER"; "HOVER"; "SCROLL UP"; "SCROLL DOWN"; "NEW TAB";
   "CLOSE TAB"; "PRESS HOME"; "PRESS END"; "PRESS PAGEUP"; "PRESS PAGEDOWN";
   "GO BACK"; "GO FORWARD"; "TERMINATE"; "NONE"].

Definition with_value_op : list string :=
  ["SELECT"; "TYPE"; "GOTO"; "MEMORIZE"; "SAY"].

Definition no_element_op : list string :=
  ["PRESS ENTER"; "SCROLL UP"; "SCROLL DOWN"; "NEW TAB"; "CLOSE TAB";
   "GO BACK"; "GOTO"; "PRESS HOME"; "PRESS END"; "PRESS PAGEUP";
   "PRESS PAGEDOWN"; "GO FORWARD"; "TERMINATE"; "NONE"; "MEMORIZE"; "SAY"].

(** [x in l] for a list of strings *)
Definition mem (x : string) (l : list string) : bool :=
  existsb (String.eqb x) l.

(** [ActionManager.__init__]: the instance fields in a world whose log, call
    trace and file system are given. *)
Definition init (cfg : config) (lg : list (level * string)) (cs : list prim)
    (f : filesystem) : world :=
  mkWorld cfg
          (match cfg_action_space cfg with
           | Some v => v
           | None => PList (map PStr default_action_space)
           end)
          [] lg cs f.

Section ActionManager.

Variable str_repr : string -> string.

(** The [if]/[elif] chain of [perform_action], in source order. *)
Definition dispatch (selector : pyval) (action_name : option string)
    (value : option string) (element_repr : pyval) : M unit :=
  let sel := py_truthy selector in
  let val := optstr_truthy value in
  let v := optstr_str value in
  let er := py_str str_repr element_repr in
  if name_is action_name "CLICK" && sel then
    call_method selector Click ;;;
    logger INFO ("Clicked on element: " ++ er)
  else if name_is action_name "HOVER" && sel then
    call_method selector Hover ;;;
    logger INFO ("Hovered over element: " ++ er)
  else if name_is action_name "TYPE" && sel && val then
    call_method selector (Fill v) ;;;
    logger INFO ("Typed '" ++ v ++ "' into element: " ++ er)
  else if name_is action_name "SCROLL UP" then
    call_method selector (Evaluate "window.scrollBy(0, -window.innerHeight / 2)") ;;;
    logger INFO "Scrolled up"
  else if name_is action_name "SCROLL DOWN" then
    call_method selector (Evaluate "window.scrollBy(0, window.innerHeight / 2)") ;;;
    logger INFO "Scrolled down"
  else if name_is action_name "PRESS HOME" then
    call_method selector (KeyboardPress "Home") ;;;
    logger INFO "Pressed Home key"
  else if name_is action_name "PRESS END" then
    call_method selector (KeyboardPress "End") ;;;
    logger INFO "Pressed End key"
  else if name_is action_name "PRESS PAGEUP" then
    call_method selector (KeyboardPress "PageUp") ;;;
    logger INFO "Pressed PageUp key"
  else if name_is action_name "PRESS PAGEDOWN" then
    call_method selector (KeyboardPress "PageDown") ;;;
    logger INFO "Pressed PageDown key"
  else if name_is action_name "NEW TAB" then
    call_method selector ContextNewPage ;;;
    logger INFO "Opened a new tab"
  else if name_is action_name "CLOSE TAB" then
    call_method selector Close ;;;
    logger INFO "Closed the current tab"
  else if name_is action_name "GO BACK" then
    call_method selector GoBack ;;;
    logger INFO "Navigated back"
  else if name_is action_name "GO FORWARD" then
    call_method selector GoForward ;;;
    logger INFO "Navigated forward"
  else if name_is action_name "GOTO" && val then
    call_method selector (Goto v) ;;;
    logger INFO ("Navigated to " ++ v)
  else if name_is action_name "PRESS ENTER" && sel then
    call_method selector (Press "Enter") ;;;
    logger INFO ("Pressed Enter on element: " ++ er)
  else if name_is action_name "SELECT" && sel && val then
    call_method selector (SelectOption v) ;;;
    logger INFO ("Selected option '" ++ v ++ "' from element: " ++ er)
  else if name_is action_name "TERMINATE" then
    logger INFO "Task has been marked as complete. Terminating..."
  else if name_is action_name "NONE" then
    logger INFO "No action necessary at this stage. Skipped."
  else if name_is action_name "SAY" && val then
    logger INFO ("Saying to the user: " ++ v)
  else if name_is action_name "MEMORIZE" && val then
    logger INFO ("Memorized content: " ++ v)
  else
    raise (ValueError ("Unsupported or improperly specified action: "
                       ++ optstr_str action_name)).

(** [selector] and [element_repr] as the first lines of [perform_action]
    bind them. *)
Definition resolve_target (target_element : option pydict)
    (element_repr : string) : pyval * pyval :=
  match target_element with
  | Some d =>
      if dict_truthy d
      then (dict_get d "selector" PNone,
            dict_get d "description" (PStr element_repr))
      else (PNone, PStr element_repr)
  | None => (PNone, PStr element_repr)
  end.

(** [f"{action_name}: {element_repr or 'No Element'} -> {value or 'No Value'}"] *)
Definition action_summary (action_name : option string) (element_repr : pyval)
    (value : option string) : string :=
  optstr_str action_name ++ ": "
  ++ (if py_truthy element_repr then py_str str_repr element_repr
      else "No Element")
  ++ " -> "
  ++ (if optstr_truthy value then optstr_str value else "No Value").

(** [f"Error performing {action_name} on {element_repr}: {e}"] *)
Definition error_msg (action_name : option string) (element_repr : pyval)
    (e : exn) : string :=
  "Error performing " ++ optstr_str action_name ++ " on "
  ++ py_str str_repr element_repr ++ ": " ++ exn_msg e.

(** [self.taken_actions.append(s)] *)
Definition append_taken (s : string) : M unit :=
  fun w => (Return tt, set_taken_actions (taken_actions w ++ [s]) w).

Definition perform_action (target_element : option pydict)
    (action_name : option string) (value : option string)
    (element_repr : string) : M string :=
  let '(selector, element_repr) := resolve_target target_element element_repr in
  try_except
    (dispatch selector action_name value element_repr ;;;
     let summary := action_summary action_name element_repr value in
     append_taken summary ;;;
     ret summary)
    (fun e =>
       let msg := error_msg action_name element_repr e in
       logger ERROR msg ;;;
       ret msg).

(** [perform_action] for a [target_element] of any of these types: [None],
    a dict, a [bool], a [str] or a list.  The first lines of the method run
    outside the [try]: a truthy value that is not a dict has no [get]. *)
Inductive pytarget : Type :=
| TNone
| TDict (d : pydict)
| TBool (b : bool)
| TStr (s : string)
| TList (l : list pyval).

Definition target_value (t : pytarget) : pyval :=
  match t with
  | TNone | TDict _ => PNone
  | TBool b => PBool b
  | TStr s => PStr s
  | TList l => PList l
  end.

Definition target_truthy (t : pytarget) : bool :=
  match t with
  | TNone => false
  | TDict d => dict_truthy d
  | _ => py_truthy (target_value t)
  end.

Definition perform_action_any (target_element : pytarget)
    (action_name : option string) (value : option string)
    (element_repr : string) : M string :=
  if target_truthy target_element then
    match target_element with
    | TDict d => perform_action (Some d) action_name value element_repr
    | _ => raise (AttributeError (target_value target_element) "get")
    end
  else perform_action None action_name value element_repr.

(** [update_action_space]: [isinstance(new_actions, list) and
    all(isinstance(action, str) for action in new_actions)] *)
Definition is_str (v : pyval) : bool :=
  match v with PStr _ => true | _ => false end.

Definition is_list_of_str (v : pyval) : bool :=
  match v with
  | PList l => forallb is_str l
  | _ => false
  end.

Definition update_action_space (new_actions : pyval) : M unit :=
  if is_list_of_str new_actions then
    (fun w => (Return tt, set_action_space new_actions w)) ;;;
    logger INFO "Action space updated."
  else
    logger WARNING "Invalid action space provided. Must be a list of strings.".

Definition get_action_space : M pyval :=
  fun w => (Return (action_space w), w).

(** *** The action history on disk *)

Fixpoint startswith (p s : string) : bool :=
  match p, s with
  | EmptyString, _ => true
  | String a p', String b s' => Ascii.eqb a b && startswith p' s'
  | String _ _, EmptyString => false
  end.

Fixpoint endswith_slash (s : string) : bool :=
  match s with
  | EmptyString => false
  | String c EmptyString => Ascii.eqb c "/"
  | String _ s' => endswith_slash s'
  end.

(** [os.path.join(a, b)] of [posixpath] *)
Definition os_path_join (a b : string) : string :=
  if startswith "/" b then b
  else if String.eqb a "" || endswith_slash a then a ++ b
  else a ++ "/" ++ b.

Fixpoint file_get (path : string) (files : list (string * string))
    : option string :=
  match files with
  | [] => None
  | (p, c) :: files' => if String.eqb p path then Some c else file_get path files'
  end.

Fixpoint file_put (path content : string) (files : list (string * string))
    : list (string * string) :=
  match files with
  | [] => [(path, content)]
  | (p, c) :: files' =>
      if String.eqb p path then (p, content) :: files'
      else (p, c) :: file_put path content files'
  end.

(** *** Path names *)

(** The pieces of a name between slashes: ["a//b/"] gives [a], [""], [b],
    [""]. *)
Fixpoint components_from (cur s : string) : list string :=
  match s with
  | EmptyString => [cur]
  | String c s' =>
      if Ascii.eqb c "/" then cur :: components_from "" s'
      else components_from (cur ++ String c EmptyString) s'
  end.

Definition components (path : string) : list string :=
  components_from "" path.

(** A place in the tree: whether it is counted from the root, and the names
    that lead to it (leading [..] for the ancestors of the working
    directory). *)
Definition position : Type := (bool * list string)%type.

Definition step (pos : position) (c : string) : position :=
  let '(absolute, names) := pos in
  if String.eqb c "" || String.eqb c "." then pos
  else if String.eqb c ".." then
    match rev names with
    | [] => if absolute then pos else (absolute, [".."])
    | top :: below =>
        if String.eqb top ".." then (absolute, names ++ [".."])
        else (absolute, rev below)
    end
  else (absolute, names ++ [c]).

(** The name under which a place is kept in [fs_dirs] and [fs_files]. *)
Definition key_of (pos : position) : string :=
  let '(absolute, names) := pos in
  if absolute then "/" ++ join "/" names
  else match names with
       | [] => "."
       | _ => join "/" names
       end.

(** The root, the working directory and its ancestors. *)
Definition always_dir (pos : position) : bool :=
  forallb (fun c => String.eqb c "..") (snd pos).

Definition is_dir (f : filesystem) (pos : position) : bool :=
  always_dir pos || mem (key_of pos) (fs_dirs f).

Definition has_file (f : filesystem) (pos : position) : bool :=
  match file_get (key_of pos) (fs_files f) with
  | Some _ => true
  | None => false
  end.

Definition OSError (class text path : string) : exn :=
  mkExn class (text ++ ": '" ++ path ++ "'").

Definition FileNotFoundError (path : string) : exn :=
  OSError "FileNotFoundError" "[Errno 2] No such file or directory" path.

Definition NotADirectoryError (path : string) : exn :=
  OSError "NotADirectoryError" "[Errno 20] Not a directory" path.

Definition IsADirectoryError (path : string) : exn :=
  OSError "IsADirectoryError" "[Errno 21] Is a directory" path.

Definition FileExistsError (path : string) : exn :=
  OSError "FileExistsError" "[Errno 17] File exists" path.

(** Following the components of [path] from [pos]: a component is looked
    up only in a directory that exists. *)
Fixpoint walk (f : filesystem) (path : string) (pos : position)
    (cs : list string) : outcome position :=
  match cs with
  | [] => Return pos
  | c :: cs' =>
      if String.eqb c "" then walk f path pos cs'
      else if is_dir f pos then walk f path (step pos c) cs'
      else if has_file f pos then Raise (NotADirectoryError path)
      else Raise (FileNotFoundError path)
  end.

(** A name that can only stand for a directory: it ends in a slash, in [.]
    or in [..]. *)
Definition names_a_directory (path : string) : bool :=
  let c := last (components path) ""%string in
  String.eqb c "" || String.eqb c "." || String.eqb c "..".

(** Name resolution: the place a name stands for, which may not exist
    yet. *)
Definition resolve (f : filesystem) (path : string) : outcome position :=
  if String.eqb path "" then Raise (FileNotFoundError path)
  else walk f path (startswith "/" path, []) (components path).

(** [os.path.exists(path)]: errors of the resolution count as absence. *)
Definition path_exists (path : string) (f : filesystem) : bool :=
  match resolve f path with
  | Return pos =>
      is_dir f pos || (negb (names_a_directory path) && has_file f pos)
  | Raise _ => false
  end.

Definition os_path_exists (path : string) : M bool :=
  fun w => (Return (path_exists path (fs w)), w).

Definition with_dirs (dirs : list string) (f : filesystem) : filesystem :=
  mkFilesystem dirs (fs_files f) (fs_refuses f).

Definition with_files (files : list (string * string)) (f : filesystem)
    : filesystem :=
  mkFilesystem (fs_dirs f) files (fs_refuses f).

(** [os.mkdir(path)] *)
Definition os_mkdir (path : string) : M unit :=
  fun w =>
    match resolve (fs w) path with
    | Raise e => (Raise e, w)
    | Return pos =>
        if is_dir (fs w) pos || has_file (fs w) pos
        then (Raise (FileExistsError path), w)
        else match fs_refuses (fs w) (ReqMkdir (key_of pos)) with
             | Some e => (Raise e, w)
             | None =>
                 (Return tt,
                  set_fs (with_dirs (fs_dirs (fs w) ++ [key_of pos]) (fs w)) w)
             end
    end.

Fixpoint has_slash (s : string) : bool :=
  match s with
  | EmptyString => false
  | String c s' => Ascii.eqb c "/" || has_slash s'
  end.

(** [p[:i], p[i:]] for [i = p.rfind('/') + 1] *)
Fixpoint cut_after_last_slash (p : string) : string * string :=
  match p with
  | EmptyString => (EmptyString, EmptyString)
  | String c p' =>
      if has_slash p' then
        let '(head, tail) := cut_after_last_slash p' in (String c head, tail)
      else if Ascii.eqb c "/" then (String c EmptyString, p')
      else (EmptyString, String c p')
  end.

(** [s.rstrip('/')] *)
Fixpoint rstrip_slash (s : string) : string :=
  match s with
  | EmptyString => EmptyString
  | String c s' =>
      match rstrip_slash s' with
      | EmptyString => if Ascii.eqb c "/" then EmptyString else String c EmptyString
      | r => String c r
      end
  end.

(** [posixpath.split(p)] *)
Definition path_split (p : string) : string * string :=
  let '(head, tail) := cut_after_last_slash p in
  (match rstrip_slash head with
   | EmptyString => head
   | stripped => stripped
   end,
   tail).

(** [os.makedirs(name)] with [exist_ok=False], as the standard library
    defines it: the parents that are missing are made first, then the
    directory itself.  The recursion is on a strictly shorter name, so
    [fuel] as large as the length of the name is never used up. *)
Fixpoint makedirs_fuel (fuel : nat) (name : string) : M unit :=
  match fuel with
  | 0 => os_mkdir name
  | S fuel' =>
      let '(head, tail) := path_split name in
      let '(head, tail) :=
        if String.eqb tail "" then path_split head else (head, tail) in
      fun w =>
        if negb (String.eqb head "") && negb (String.eqb tail "")
           && negb (path_exists head (fs w))
        then
          let after_parents w' :=
            if String.eqb tail "." then (Return tt, w') else os_mkdir name w' in
          match makedirs_fuel fuel' head w with
          | (Return _, w') => after_parents w'
          | (Raise e, w') =>
              if String.eqb (exn_class e) "FileExistsError"
              then after_parents w'
              else (Raise e, w')
          end
        else os_mkdir name w
  end.

Definition os_makedirs (name : string) : M unit :=
  makedirs_fuel (String.length name) name.

(** [open(path, 'w')]: the regular file is created or truncated; the result
    stands for the open file. *)
Definition open_w (path : string) : M string :=
  fun w =>
    match resolve (fs w) path with
    | Raise e => (Raise e, w)
    | Return pos =>
        if names_a_directory path || is_dir (fs w) pos
        then (Raise (IsADirectoryError path), w)
        else match fs_refuses (fs w) (ReqOpen (key_of pos)) with
             | Some e => (Raise e, w)
             | None =>
                 (Return (key_of pos),
                  set_fs (with_files (file_put (key_of pos) "" (fs_files (fs w)))
                                     (fs w)) w)
             end
    end.

(** [f.write(s)] on an open file *)
Definition f_write (f : string) (s : string) : M unit :=
  fun w =>
    match fs_refuses (fs w) (ReqWrite f s) with
    | Some e => (Raise e, w)
    | None =>
        (Return tt,
         set_fs (with_files
                   (file_put f
                             (match file_get f (fs_files (fs w)) with
                              | Some c => c ++ s
                              | None => s
                              end)
                             (fs_files (fs w)))
                   (fs w)) w)
    end.

(** [for x in l: body(x)] *)
Fixpoint for_each {A} (l : list A) (body : A -> M unit) : M unit :=
  match l with
  | [] => ret tt
  | x :: l' => body x ;;; for_each l' body
  end.

(** [self.config.get("basic", {}).get("save_file_dir", "seeact_agent_files")] *)
Definition save_file_dir (cfg : config) : string :=
  match cfg_basic cfg with
  | Some (Some d) => d
  | _ => "seeact_agent_files"
  end.

Definition save_action_history (filename : string) : M unit :=
  fun w =>
    let directory := save_file_dir (am_config w) in
    (present <- os_path_exists directory ;;
     (if negb present then os_makedirs directory else ret tt) ;;;
     let history_path := os_path_join directory filename in
     f <- open_w history_path ;;
     for_each (taken_actions w) (fun action => f_write f (action ++ nl)) ;;;
     logger INFO ("Action history saved to " ++ history_path)) w.

(** The default of the [filename] parameter. *)
Definition default_filename : string := "action_history.txt".

Definition clear_action_history : M unit :=
  (fun w => (Return tt, set_taken_actions [] w)) ;;;
  logger INFO "Action history cleared.".

End ActionManager.

(** The lines of a text file: every line feed ends a line, and text after
    the last line feed is a last line. *)
Fixpoint lines_from (cur s : string) : list string :=
  match s with
  | EmptyString => if String.eqb cur "" then [] else [cur]
  | String c s' =>
      if Ascii.eqb c (ascii_of_nat 10) then cur :: lines_from "" s'
      else lines_from (cur ++ String c EmptyString) s'
  end.

Definition file_lines (content : string) : list string := lines_from "" content.

(** [needle in hay] *)
Definition contains (needle hay : string) : Prop :=
  exists pre post, hay = (pre ++ needle ++ post)%string.

(** ** [PromptManager] *)

Definition initial_system_prompt : string :=
  "You are assisting humans in web navigation tasks step by step. "
  ++ nl ++ "            At each stage, you can see the webpage by a screenshot and know the previous actions "
  ++ nl ++ "            that have been executed for this task. You need to decide on the next action to take.".

Definition initial_action_space : string :=
  ""
  ++ nl ++ "Here are the descriptions of all allowed actions:"
  ++ nl ++ ""
  ++ nl ++ "No Value Operations:"
  ++ nl ++ "- CLICK: Click on a webpage element using the mouse."
  ++ nl ++ "- HOVER: Move the mouse over a webpage element without clicking."
  ++ nl ++ "- PRESS ENTER: Press the Enter key to submit or confirm an input."
  ++ nl ++ "- SCROLL UP: Scroll up on the page."
  ++ nl ++ "- SCROLL DOWN: Scroll down on the page."
  ++ nl ++ "- PRESS HOME: Go to the top of the page."
  ++ nl ++ "- PRESS END: Go to the bottom of the page."
  ++ nl ++ "- PRESS PAGEUP: Scroll up by one page."
  ++ nl ++ "- PRESS PAGEDOWN: Scroll down by one page."
  ++ nl ++ "- CLOSE TAB: Close the current tab."
  ++ nl ++ "- NEW TAB: Open a new tab."
  ++ nl ++ "- GO BACK: Navigate to the previous page."
  ++ nl ++ "- GO FORWARD: Navigate to the next page."
  ++ nl ++ "- TERMINATE: End the task if completed or if the task is risky."
  ++ nl ++ "- NONE: Skip an action if unnecessary at this stage."
  ++ nl ++ ""
  ++ nl ++ "With Value Operations:"
  ++ nl ++ "- SELECT: Choose an option from a dropdown menu."
  ++ nl ++ "- TYPE: Enter text into a text box."
  ++ nl ++ "- GOTO: Navigate to a specific URL."
  ++ nl ++ "- SAY: Output information to the user."
  ++ nl ++ "- MEMORIZE: Store content for reference."
  ++ nl ++ "".

Definition initial_question_description : string :=
  "The screenshot below shows the webpage. Think through each step "
  ++ nl ++ "            before deciding on the next action. Clearly outline the element to interact with, "
  ++ nl ++ "            its location, and the action to perform. Follow these rules:"
  ++ nl ++ "1. Issue only one valid action per step."
  ++ nl ++ "2. Handle dropdowns directly; options will be listed."
  ++ nl ++ "3. Avoid account creation, login, or final submissions."
  ++ nl ++ "4. Terminate if task is complete or requires potentially harmful actions."
  ++ nl ++ "5. Interact with floating banners, closing them if they cover content."
  ++ nl ++ "6. Type or select inputs directly, bypassing clicks when possible."
  ++ nl ++ "7. Avoid repeating the same failed action consecutively."
  ++ nl ++ "8. Ignore minor banners (e.g., cookie policies)."
  ++ nl ++ "9. Press ENTER after typing in search or text inputs."
  ++ nl ++ "10. Choose the least obstructed clickable button if options are identical.".

Definition initial_referring_description : string :=
  "(Reiteration)"
  ++ nl ++ "Reiterate your next target element, its location, and the corresponding action."
  ++ nl ++ ""
  ++ nl ++ "(Multi-choice Question)"
  ++ nl ++ "Below is a multi-choice question with elements arranged by their height on the page, "
  ++ nl ++ "from top to bottom and left to right. From the screenshot, locate and match each choice "
  ++ nl ++ "with its corresponding element by examining the content and HTML details. Then choose the "
  ++ nl ++ "matching element based on your target action.".

Definition initial_element_format : string :=
  "(Final Answer)"
  ++ nl ++ "Conclude with the following format for the target element:"
  ++ nl ++ ""
  ++ nl ++ "ELEMENT: The uppercase letter representing your choice.".

Definition initial_action_format : string :=
  "ACTION: Choose an action from allowed actions.".

Definition initial_value_format : string :=
  "VALUE: Provide additional input as needed based on ACTION (if not needed, write " ++ dq ++ "None" ++ dq ++ ")".

(** [self.prompts], a dict with these seven keys. *)
Record prompts : Type := mkPrompts {
  system_prompt : string;
  action_space_text : string;
  question_description : string;
  referring_description : string;
  element_format : string;
  action_format : string;
  value_format : string
}.

Definition _initialize_prompts : prompts :=
  mkPrompts initial_system_prompt initial_action_space
            initial_question_description initial_referring_description
            initial_element_format initial_action_format initial_value_format.

(** [update_prompt_part]: the new dict and the returned flag (the message
    printed for an unknown name is not modelled). *)
Definition update_prompt_part (p : prompts) (part_name new_text : string)
    : prompts * bool :=
  if String.eqb part_name "system_prompt" then
    (mkPrompts new_text (action_space_text p) (question_description p)
               (referring_description p) (element_format p) (action_format p)
               (value_format p), true)
  else if String.eqb part_name "action_space" then
    (mkPrompts (system_prompt p) new_text (question_description p)
               (referring_description p) (element_format p) (action_format p)
               (value_format p), true)
  else if String.eqb part_name "question_description" then
    (mkPrompts (system_prompt p) (action_space_text p) new_text
               (referring_description p) (element_format p) (action_format p)
               (value_format p), true)
  else if String.eqb part_name "referring_description" then
    (mkPrompts (system_prompt p) (action_space_text p) (question_description p)
               new_text (element_format p) (action_format p)
               (value_format p), true)
  else if String.eqb part_name "element_format" then
    (mkPrompts (system_prompt p) (action_space_text p) (question_description p)
               (referring_description p) new_text (action_format p)
               (value_format p), true)
  else if String.eqb part_name "action_format" then
    (mkPrompts (system_prompt p) (action_space_text p) (question_description p)
               (referring_description p) (element_format p) new_text
               (value_format p), true)
  else if String.eqb part_name "value_format" then
    (mkPrompts (system_prompt p) (action_space_text p) (question_description p)
               (referring_description p) (element_format p) (action_format p)
               new_text, true)
  else (p, false).

Section PromptManager.

Variable str_repr : string -> string.

Definition _generate_new_query_prompt (system_prompt : string)
    (task : option string) (previous_actions : pyval)
    (question_description : string) : list string :=
  [(system_prompt ++ nl ++ "Task: " ++ optstr_str task ++ nl
    ++ "Previous Actions: " ++ py_str str_repr previous_actions ++ nl
    ++ question_description)%string].

(** [choices] is [None] or a list of strings; [None] and the empty list are
    falsy. *)
Definition choices_str (choices : option (list string)) : string :=
  match choices with
  | Some (c :: cs) => join nl (c :: cs)
  | _ => "No choices available"
  end.

Definition _generate_new_referring_prompt
    (referring_description element_format action_format value_format : string)
    (choices : option (list string)) : string :=
  referring_description ++ nl ++ "Choices:" ++ nl ++ choices_str choices
  ++ nl ++ nl ++ element_format ++ nl ++ action_format ++ nl ++ value_format.

Definition generate_prompt (p : prompts) (task : option string)
    (previous : pyval) (choices : option (list string)) : list string :=
  let prompt_list := [] in
  let prompt_list :=
    prompt_list
    ++ _generate_new_query_prompt
         (system_prompt p ++ nl ++ action_space_text p)
         task previous (question_description p) in
  let prompt_list :=
    prompt_list
    ++ [_generate_new_referring_prompt
          (referring_description p) (element_format p) (action_format p)
          (value_format p) choices] in
  prompt_list.

End PromptManager.

(** ** [ConfigManager] *)

(** The values of a configuration: what [toml.load] produces and what
    [default_config] spells out.  [COther] is a scalar of another type (a
    float, a date), kept as its type name and literal. *)
#[warnings="-register-all"]
Inductive cval : Type :=
| CStr (s : string)
| CInt (z : Z)
| CBool (b : bool)
| COther (type_name literal : string)
| CList (l : list cval)
| CDict (d : list (string * cval)).

Definition cdict : Type := list (string * cval).

Fixpoint clookup (k : string) (d : cdict) : option cval :=
  match d with
  | [] => None
  | (k', v) :: d' => if String.eqb k' k then Some v else clookup k d'
  end.

Definition ctype_name (v : cval) : string :=
  match v with
  | CStr _ => "str"
  | CInt _ => "int"
  | CBool _ => "bool"
  | COther t _ => t
  | CList _ => "list"
  | CDict _ => "dict"
  end.

(** [needle in hay] for two strings *)
Fixpoint substring_b (needle hay : string) : bool :=
  startswith needle hay
  || match hay with
     | EmptyString => false
     | String _ hay' => substring_b needle hay'
     end.

Definition TypeError (msg : string) : exn := mkExn "TypeError" msg.

(** [k in v] for a string [k]: a key test on a dict, a substring test on a
    string, an element test on a list, a [TypeError] on a scalar. *)
Definition cin (k : string) (v : cval) : outcome bool :=
  match v with
  | CDict d => Return (match clookup k d with Some _ => true | None => false end)
  | CStr s => Return (substring_b k s)
  | CList l =>
      Return (existsb (fun x => match x with
                                | CStr s => String.eqb s k
                                | _ => false
                                end) l)
  | _ => Raise (TypeError ("argument of type '" ++ ctype_name v
                           ++ "' is not iterable"))
  end.

(** [v[k]] for a string [k] *)
Definition cgetitem (v : cval) (k : string) : outcome cval :=
  match v with
  | CDict d =>
      match clookup k d with
      | Some x => Return x
      | None => Raise (mkExn "KeyError" ("'" ++ k ++ "'"))
      end
  | CStr _ => Raise (TypeError "string indices must be integers, not 'str'")
  | CList _ => Raise (TypeError "list indices must be integers or slices, not str")
  | _ => Raise (TypeError ("'" ++ ctype_name v ++ "' object is not subscriptable"))
  end.

(** [isinstance(v, int)]: [bool] is a subclass of [int]. *)
Definition is_int (v : cval) : bool :=
  match v with CInt _ | CBool _ => true | _ => false end.

Definition is_cstr (v : cval) : bool :=
  match v with CStr _ => true | _ => false end.

Definition is_dict (v : cval) : bool :=
  match v with CDict _ => true | _ => false end.

Definition default_config : cdict :=
  [("basic", CDict
      [("save_file_dir", CStr "seeact_agent_files");
       ("default_task",
        CStr "Find the pdf of the paper 'GPT-4V(ision) is a Generalist Web Agent, if Grounded'");
       ("default_website", CStr "https://www.google.com/");
       ("crawler_mode", CBool false);
       ("crawler_max_steps", CInt 10)]);
   ("agent", CDict
      [("input_info", CList [CStr "screenshot"]);
       ("grounding_strategy", CStr "text_choice_som");
       ("max_auto_op", CInt 50);
       ("max_continuous_no_op", CInt 5);
       ("highlight", CBool false)]);
   ("openai", CDict
      [("rate_limit", CInt (-1));
       ("model", CStr "gpt-4o");
       ("temperature", COther "float" "0.9")]);
   ("browser", CDict
      [("headless", CBool false);
       ("args", CList []);
       ("browser_app", CStr "chrome");
       ("persistant", CBool false);
       ("persistant_user_path", CStr "");
       ("save_video", CBool false);
       ("viewport", CDict [("width", CInt 1280); ("height", CInt 720)]);
       ("tracing", CBool false);
       ("trace", CDict
          [("screenshots", CBool true);
           ("snapshots", CBool true);
           ("sources", CBool true)])])].

Definition required_sections : list string :=
  ["basic"; "agent"; "openai"; "browser"].

(** The loop over [required_sections]: the first section that is not a key
    of [config]. *)
Fixpoint first_missing (sections : list string) (config : cdict)
    : option string :=
  match sections with
  | [] => None
  | section :: rest =>
      match clookup section config with
      | None => Some section
      | Some _ => first_missing rest config
      end
  end.

(** The condition of one field check,
    [key in config[section] and not isinstance(config[section][key], T)]. *)
Definition field_violation (config : cdict) (section key : string)
    (isinstance_T : cval -> bool) : outcome bool :=
  match cgetitem (CDict config) section with
  | Raise e => Raise e
  | Return sec =>
      match cin key sec with
      | Raise e => Raise e
      | Return false => Return false
      | Return true =>
          match cgetitem sec key with
          | Raise e => Raise e
          | Return v => Return (negb (isinstance_T v))
          end
      end
  end.

(** [validate_config]: the lines printed and the result. *)
Definition validate_config (config : cdict) : list string * outcome bool :=
  match first_missing required_sections config with
  | Some section =>
      (["Warning: Missing '" ++ section ++ "' section in configuration."]%string,
       Return false)
  | None =>
      match field_violation config "basic" "crawler_max_steps" is_int with
      | Raise e => ([], Raise e)
      | Return true =>
          (["Error: 'crawler_max_steps' must be an integer."]%string, Return false)
      | Return false =>
          match field_violation config "openai" "model" is_cstr with
          | Raise e => ([], Raise e)
          | Return true =>
              (["Error: 'model' must be a string."]%string, Return false)
          | Return false =>
              match field_violation config "browser" "viewport" is_dict with
              | Raise e => ([], Raise e)
              | Return true =>
                  (["Error: 'viewport' must be a dictionary."]%string, Return false)
              | Return false => ([], Return true)
              end
          end
      end
  end.

Section LoadConfig.

(** [toml.load] on the text of a file: the parsed table, or the exception
    the parser raises.  The parser is not part of the repository. *)
Variable toml_load : string -> outcome cdict.


End LoadConfig.

(** ** [crawler_helper] *)

(** [links.remove(x)]: the first element equal to [x] is taken out. *)
Fixpoint remove_first (x : string) (links : list string) : list string :=
  match links with
  | [] => []
  | y :: links' => if String.eqb y x then links' else y :: remove_first x links'
  end.

(** [get_random_link]: the returned link and the list as the call leaves it.
    [random.choice] returns the element at an index below the length; the
    model takes the random draw as a number and reduces it modulo the
    length. *)
Definition get_random_link (draw : nat) (links : list string)
    : option string * list string :=
  if Nat.eqb (length links) 0 then (None, links)
  else
    let random_link := nth (draw mod length links) links ""%string in
    (Some random_link, remove_first random_link links).

(** Successive calls on the same list, one per draw: the links returned and
    the list left over. *)
Fixpoint crawl (draws : list nat) (links : list string)
    : list (option string) * list string :=
  match draws with
  | [] => ([], links)
  | d :: draws' =>
      let '(link, links') := get_random_link d links in
      let '(rest, final) := crawl draws' links' in
      (link :: rest, final)
  end.

(** The links among the returned values. *)
Fixpoint visited (results : list (option string)) : list string :=
  match results with
  | [] => []
  | Some x :: results' => x :: visited results'
  | None :: results' => visited results'
  end.

(** ** [logging_utils] *)

Definition NameError (name : string) : exn :=
  mkExn "NameError" ("name '" ++ name ++ "' is not defined").

(** [setup_logger], up to its first use of [logging]: the module imports
    only [os] and [datetime], so looking the name up raises [NameError] and
    the statements after it are never reached. *)
Definition setup_logger (log_dir filename : string)
    (redirect_to_dev_log : bool) : M unit :=
  present <- os_path_exists log_dir ;;
  (if negb present then os_makedirs log_dir else ret tt) ;;;
  let log_file :=
    os_path_join log_dir (if redirect_to_dev_log then "dev.log" else filename) in
  raise (NameError "logging").

(** The field of a table that is absent or passes its type test. *)
Definition field_ok (d : cdict) (key : string) (isinstance_T : cval -> bool)
    : bool :=
  match clookup key d with
  | Some v => isinstance_T v
  | None => true
  end.

(** ** Vocabulary of the statements *)

(** [touches_only_page_and_log m]: running [m] leaves the fields of the
    [ActionManager] and the file system alone, makes at most one primitive
    call and, when it raises, writes nothing to the log. *)
Definition touches_only_page_and_log (m : M unit) : Prop :=
  forall w,
    let w' := snd (m w) in
    am_config w' = am_config w /\
    action_space w' = action_space w /\
    taken_actions w' = taken_actions w /\
    fs w' = fs w /\
    (exists cs, calls w' = calls w ++ cs /\ length cs <= 1) /\
    (forall e, fst (m w) = Raise e -> logged w' = logged w).

(** When a dispatch has made the call [p] on the handle [h] and [h] raises
    on [p], the dispatch raises that exception. *)
Definition relays_handle_errors (selector : pyval) (m : M unit) : Prop :=
  forall w h p e,
    selector = PObj h ->
    calls (snd (m w)) = calls w ++ [p] ->
    h_respond h p = Some e ->
    fst (m w) = Raise e.

(** How the first lines of [perform_action] see the target: [None] when
    it is truthy and not a dict (the [get] lookup fails), otherwise the
    target as [None] or a dict. *)
Definition target_view (t : pytarget) : option (option pydict) :=
  match t with
  | TNone => Some None
  | TDict d => Some (Some d)
  | _ => if target_truthy t then None else Some None
  end.

(** The action names the dispatch knows: the two value lists together. *)
Definition in_taxonomy (action_name : option string) : bool :=
  match action_name with
  | Some s => mem s (no_value_op ++ with_value_op)
  | None => false
  end.

(** The actions whose branch is guarded by [and selector]. *)
Definition element_guarded : list string :=
  ["CLICK"; "HOVER"; "TYPE"; "PRESS ENTER"; "SELECT"].

(** The message of the [ValueError] of the last branch. *)
Definition unsupported (action_name : option string) : exn :=
  ValueError ("Unsupported or improperly specified action: "
              ++ optstr_str action_name).

Fixpoint has_newline (s : string) : bool :=
  match s with
  | EmptyString => false
  | String c s' => Ascii.eqb c (ascii_of_nat 10) || has_newline s'
  end.

(** What reading the regular file named [path] gives. *)
Definition file_text (path : string) (f : filesystem) : option string :=
  match resolve f path with
  | Return pos =>
      if names_a_directory path || is_dir f pos then None
      else file_get (key_of pos) (fs_files f)
  | Raise _ => None
  end.

(** A single ordinary name: not empty, without a slash, neither [.] nor
    [..]. *)
Definition plain_name (s : string) : bool :=
  negb (String.eqb s "") && negb (has_slash s)
  && negb (String.eqb s ".") && negb (String.eqb s "..").

(** What the write loop of [save_action_history] leaves in the file. *)
Definition history_text (summaries : list string) : string :=
  fold_right (fun a rest => (a ++ nl ++ rest)%string) ""%string summaries.

(** The page-level actions whose branch has no guard, each with the first
    attribute its primitive call looks up on [selector]. *)
Definition page_level_ops : list (string * string) :=
  [("SCROLL UP", "evaluate"); ("SCROLL DOWN", "evaluate");
   ("PRESS HOME", "keyboard"); ("PRESS END", "keyboard");
   ("PRESS PAGEUP", "keyboard"); ("PRESS PAGEDOWN", "keyboard");
   ("NEW TAB", "context"); ("CLOSE TAB", "close");
   ("GO BACK", "go_back"); ("GO FORWARD", "go_forward")]%string.

(** The record returned when the primitive call is attempted on [None]. *)
Definition none_error (action attr element_repr : string) : string :=
  ("Error performing " ++ action ++ " on " ++ element_repr
   ++ ": 'NoneType' object has no attribute '" ++ attr ++ "'")%string.

(** What happens to a page-level action whose [selector] is [None]. *)
Definition fails_on_none (str_repr : string -> string)
    (value : option string) (element_repr : string) (w : world)
    (op : string * string) : Prop :=
  let run := perform_action str_repr None (Some (fst op)) value element_repr w in
  fst run = Return (none_error (fst op) (snd op) element_repr) /\
  calls (snd run) = calls w /\
  taken_actions (snd run) = taken_actions w.

(** [manager_kept m]: [m] changes nothing but the directories and files:
    the fields of the [ActionManager], the call trace and what the
    operating system refuses stay as they were. *)
Definition manager_kept {A} (m : M A) : Prop :=
  forall w,
    let w' := snd (m w) in
    am_config w' = am_config w /\
    action_space w' = action_space w /\
    taken_actions w' = taken_actions w /\
    calls w' = calls w /\
    fs_refuses (fs w') = fs_refuses (fs w).

(** ** Vocabulary of the further properties *)

(** [logs_like_a_branch m]: a run of [m] that returns has written exactly
    one INFO record, and a run that raises has written none. *)
Definition logs_like_a_branch (m : M unit) : Prop :=
  forall w,
    match m w with
    | (Return _, w') => exists msg, logged w' = logged w ++ [(INFO, msg)]
    | (Raise _, w') => logged w' = logged w
    end.

(** [blind_to_action_space m]: [m] neither reads nor writes
    [self.action_space]. *)
Definition blind_to_action_space {A} (m : M A) : Prop :=
  forall a w, m (set_action_space a w)
              = (fst (m w), set_action_space a (snd (m w))).

(** The primitive call of each branch of the dispatch, for the value [v]. *)
Definition primitive_of (action : string) (v : string) : option prim :=
  if String.eqb action "CLICK" then Some Click
  else if String.eqb action "HOVER" then Some Hover
  else if String.eqb action "TYPE" then Some (Fill v)
  else if String.eqb action "SCROLL UP" then
    Some (Evaluate "window.scrollBy(0, -window.innerHeight / 2)")
  else if String.eqb action "SCROLL DOWN" then
    Some (Evaluate "window.scrollBy(0, window.innerHeight / 2)")
  else if String.eqb action "PRESS HOME" then Some (KeyboardPress "Home")
  else if String.eqb action "PRESS END" then Some (KeyboardPress "End")
  else if String.eqb action "PRESS PAGEUP" then Some (KeyboardPress "PageUp")
  else if String.eqb action "PRESS PAGEDOWN" then Some (KeyboardPress "PageDown")
  else if String.eqb action "NEW TAB" then Some ContextNewPage
  else if String.eqb action "CLOSE TAB" then Some Close
  else if String.eqb action "GO BACK" then Some GoBack
  else if String.eqb action "GO FORWARD" then Some GoForward
  else if String.eqb action "GOTO" then Some (Goto v)
  else if String.eqb action "PRESS ENTER" then Some (Press "Enter")
  else if String.eqb action "SELECT" then Some (SelectOption v)
  else None.

Definition calls_of (p : option prim) : list prim :=
  match p with
  | Some c => [c]
  | None => []
  end.

(** The requests that go through when no target element is given. *)
Definition succeeds_without_target (action_name value : option string) : bool :=
  name_is action_name "TERMINATE"
  || name_is action_name "NONE"
  || (name_is action_name "SAY" || name_is action_name "MEMORIZE")
     && optstr_truthy value.

(** The action space after a run of [update_action_space] calls: the last
    argument that is a list of strings, or the space before them. *)
Fixpoint last_valid (before : pyval) (updates : list pyval) : pyval :=
  match updates with
  | [] => before
  | u :: us => last_valid (if is_list_of_str u then u else before) us
  end.

(** [self.prompts[name]], when [name] is a key. *)
Definition prompt_part (p : prompts) (name : string) : option string :=
  if String.eqb name "system_prompt" then Some (system_prompt p)
  else if String.eqb name "action_space" then Some (action_space_text p)
  else if String.eqb name "question_description" then Some (question_description p)
  else if String.eqb name "referring_description" then Some (referring_description p)
  else if String.eqb name "element_format" then Some (element_format p)
  else if String.eqb name "action_format" then Some (action_format p)
  else if String.eqb name "value_format" then Some (value_format p)
  else None.

(** The parts that go into the first segment, and those of the second. *)
Definition query_parts : list string :=
  ["system_prompt"; "action_space"; "question_description"].

Definition referring_parts : list string :=
  ["referring_description"; "element_format"; "action_format"; "value_format"].

(** The values on which [in] is defined. *)
Definition is_container (v : cval) : bool :=
  match v with CStr _ | CList _ | CDict _ => true | _ => false end.

(** A table with some entries. *)
Definition sample_table : cdict :=
  [("basic", CInt 3); ("agent", CStr ""); ("openai", CInt 0);
   ("browser", CInt 0)].

(** Sample values for closed statements. *)

(** A stand-in for [repr] on strings without quotes or escapes. *)
Definition plain_repr (s : string) : string := ("'" ++ s ++ "'")%string.

(** A fresh [ActionManager({})] with nothing logged, called or on disk. *)
Definition empty_world : world := init (mkConfig None None) [] [] (mkFs [] []).

(** A page that answers every call. *)
Definition page : handle := mkHandle "<Page>" (fun _ => None).

(** A page on which every call is interrupted from the keyboard. *)
Definition interrupted : handle :=
  mkHandle "<Page>" (fun _ => Some (mkException "KeyboardInterrupt" "" false)).

(** A locator whose element has gone away. *)
Definition stale : handle :=
  mkHandle "<Locator>"
           (fun _ => Some (mkExn "Error" "Element is not attached to the DOM")).

(** * Properties *)

(** ** Strings *)

Lemma contains_intro (pre needle post : string) :
  contains needle (pre ++ needle ++ post)%string.
Proof. exists pre, post. reflexivity. Qed.

Lemma str_app_nil_r (s : string) : (s ++ "")%string = s.
Proof. induction s as [|c s IH]; simpl; [reflexivity | now rewrite IH]. Qed.

Lemma str_app_assoc (a b c : string) :
  ((a ++ b) ++ c)%string = (a ++ b ++ c)%string.
Proof. induction a as [|x a IH]; simpl; [reflexivity | now rewrite IH]. Qed.

Lemma contains_suffix (pre needle : string) : contains needle (pre ++ needle)%string.
Proof. exists pre, ""%string. now rewrite str_app_nil_r. Qed.

(** ** The monad *)

Lemma bind_Return {A B} (m : M A) (k : A -> M B) w a w' :
  m w = (Return a, w') -> bind m k w = k a w'.
Proof. unfold bind. now intros ->. Qed.

(** ** What a dispatch can change *)

Lemma touches_if (b : bool) (m1 m2 : M unit) :
  touches_only_page_and_log m1 -> touches_only_page_and_log m2 ->
  touches_only_page_and_log (if b then m1 else m2).
Proof. now destruct b. Qed.

Lemma touches_logger lv msg : touches_only_page_and_log (logger lv msg).
Proof.
  intros w; simpl. repeat split; try reflexivity.
  - exists []. rewrite app_nil_r. split; [reflexivity | simpl; lia].
  - discriminate.
Qed.

Lemma touches_raise e : touches_only_page_and_log (raise e).
Proof.
  intros w; simpl. repeat split; try reflexivity.
  exists []. rewrite app_nil_r. split; [reflexivity | simpl; lia].
Qed.

Lemma touches_call_then_log selector p lv msg :
  touches_only_page_and_log (call_method selector p ;;; logger lv msg).
Proof.
  intros w. unfold bind, call_method.
  destruct selector as [| b | s | l | h];
    try (simpl; repeat split; try reflexivity;
         exists []; rewrite app_nil_r; split; [reflexivity | simpl; lia]).
  destruct (h_respond h p) as [e|]; simpl; repeat split; try reflexivity;
    try (exists [p]; split; [reflexivity | simpl; lia]).
  discriminate.
Qed.

Create HintDb dispatch.

#[local] Hint Resolve touches_if touches_logger touches_raise
  touches_call_then_log : dispatch.

Section PerformActionFacts.

Variable str_repr : string -> string.

Lemma dispatch_touches selector action_name value element_repr :
  touches_only_page_and_log
    (dispatch str_repr selector action_name value element_repr).
Proof. unfold dispatch. auto 30 with dispatch. Qed.

(** [perform_action] in terms of its dispatch: the summary is appended
    after a dispatch that returns, the error message is logged after one
    that raises an [Exception], and any other exception goes through. *)
Lemma perform_action_eq target_element action_name value element_repr w :
  perform_action str_repr target_element action_name value element_repr w =
  match dispatch str_repr (fst (resolve_target target_element element_repr))
                 action_name value
                 (snd (resolve_target target_element element_repr)) w with
  | (Return _, w') =>
      (Return (action_summary str_repr action_name
                 (snd (resolve_target target_element element_repr)) value),
       set_taken_actions
         (taken_actions w'
          ++ [action_summary str_repr action_name
                (snd (resolve_target target_element element_repr)) value]) w')
  | (Raise e, w') =>
      if exn_is_Exception e then
        (Return (error_msg str_repr action_name
                   (snd (resolve_target target_element element_repr)) e),
         set_logged
           (logged w'
            ++ [(ERROR, error_msg str_repr action_name
                          (snd (resolve_target target_element element_repr)) e)])
           w')
      else (Raise e, w')
  end.
Proof.
  unfold perform_action.
  destruct (resolve_target target_element element_repr) as [sel er]; simpl.
  unfold try_except, bind.
  destruct (dispatch str_repr sel action_name value er w) as [[[]|e] w'];
    reflexivity.
Qed.

(** [perform_action_any] in terms of [perform_action]. *)
Lemma perform_action_any_eq target_element action_name value element_repr w :
  perform_action_any str_repr target_element action_name value element_repr w =
  match target_view target_element with
  | Some td => perform_action str_repr td action_name value element_repr w
  | None => (Raise (AttributeError (target_value target_element) "get"), w)
  end.
Proof.
  unfold perform_action_any, target_view.
  destruct target_element as [| d | b | s | l]; try reflexivity.
  - destruct d; reflexivity.
  - destruct (target_truthy (TBool b)); reflexivity.
  - destruct (target_truthy (TStr s)); reflexivity.
  - destruct (target_truthy (TList l)); reflexivity.
Qed.

End PerformActionFacts.

(** ** The last branch of the dispatch *)

Section Unsupported.

Variable str_repr : string -> string.

Lemma mem_cases (x : string) (l : list string) :
  mem x l = true -> In x l.
Proof.
  unfold mem. intros H. apply existsb_exists in H.
  destruct H as [y [Hy E]]. apply String.eqb_eq in E. now subst y.
Qed.

Ltac all_names_differ H :=
  cbn [in_taxonomy mem existsb app no_value_op with_value_op] in H;
  repeat (apply orb_false_iff in H; destruct H as [? H]).

(** A name outside the two value lists reaches the last branch. *)
Lemma dispatch_unknown selector action_name value element_repr w :
  in_taxonomy action_name = false ->
  dispatch str_repr selector action_name value element_repr w
  = (Raise (unsupported action_name), w).
Proof.
  intros H. unfold dispatch. destruct action_name as [s|].
  - all_names_differ H. cbn [name_is].
    repeat match goal with E : String.eqb s _ = false |- _ => rewrite E; clear E end.
    reflexivity.
  - reflexivity.
Qed.

(** A value-bearing action without a truthy value reaches the last branch. *)
Lemma dispatch_value_missing selector s value element_repr w :
  mem s with_value_op = true ->
  optstr_truthy value = false ->
  dispatch str_repr selector (Some s) value element_repr w
  = (Raise (unsupported (Some s)), w).
Proof.
  intros Hs Hv. apply mem_cases in Hs. unfold dispatch. rewrite Hv.
  cbn [In with_value_op] in Hs.
  destruct (py_truthy selector);
    repeat (destruct Hs as [<- | Hs]; [reflexivity|]); contradiction.
Qed.

(** An action guarded by [and selector] without a truthy selector reaches
    the last branch. *)
Lemma dispatch_element_missing selector s value element_repr w :
  mem s element_guarded = true ->
  py_truthy selector = false ->
  dispatch str_repr selector (Some s) value element_repr w
  = (Raise (unsupported (Some s)), w).
Proof.
  intros Hs Hsel. apply mem_cases in Hs. unfold dispatch. rewrite Hsel.
  cbn [In element_guarded] in Hs.
  destruct (optstr_truthy value);
    repeat (destruct Hs as [<- | Hs]; [reflexivity|]); contradiction.
Qed.

End Unsupported.

(** ** Failure isolation *)

Lemma no_call_absurd (cs : list prim) (p : prim) : cs = cs ++ [p] -> False.
Proof.
  intros H. apply (f_equal (@length prim)) in H.
  rewrite length_app in H. simpl in H. lia.
Qed.

Lemma relays_if selector (b : bool) (m1 m2 : M unit) :
  relays_handle_errors selector m1 -> relays_handle_errors selector m2 ->
  relays_handle_errors selector (if b then m1 else m2).
Proof. now destruct b. Qed.

Lemma relays_logger selector lv msg : relays_handle_errors selector (logger lv msg).
Proof. intros w h p e _ H _. simpl in H. now apply no_call_absurd in H. Qed.

Lemma relays_raise selector e0 : relays_handle_errors selector (raise e0).
Proof. intros w h p e _ H _. simpl in H. now apply no_call_absurd in H. Qed.

Lemma relays_call_then_log selector p0 lv msg :
  relays_handle_errors selector (call_method selector p0 ;;; logger lv msg).
Proof.
  intros w h p e -> H He. unfold bind, call_method in *.
  destruct (h_respond h p0) as [e0|] eqn:E0; simpl in H;
    apply app_inv_head in H; injection H as ->;
    rewrite He in E0; [now injection E0 as -> | discriminate].
Qed.

#[local] Hint Resolve relays_if relays_logger relays_raise
  relays_call_then_log : dispatch.

Lemma dispatch_relays str_repr selector action_name value element_repr :
  relays_handle_errors selector
    (dispatch str_repr selector action_name value element_repr).
Proof. unfold dispatch. auto 30 with dispatch. Qed.

(** C3, as the code has it: for a target that is [None], falsy or a dict,
    [perform_action] lets no exception that derives from [Exception] reach
    the caller.  A name outside the taxonomy, a value-bearing action without
    a value and an element-guarded action without an element return the
    error record of the "Unsupported or improperly specified action" branch;
    every [Exception] raised inside the dispatch, in particular by the
    primitive call on the handle, is returned as an error record that
    contains its text; CLICK without a target is such an unsupported record.
    What does reach the caller: an exception outside [Exception] raised by
    the primitive call (the handler is [except Exception]), and the
    [AttributeError] of the [get] lookup on a truthy target that is not a
    dict (the lookup is outside the [try]). *)
Theorem perform_action_isolates_exceptions :
  forall str_repr target_element action_name value element_repr w,
    let run := perform_action_any str_repr target_element action_name value
                                  element_repr w in
    match target_view target_element with
    | None =>
        run = (Raise (AttributeError (target_value target_element) "get"), w)
    | Some td =>
        let sel := fst (resolve_target td element_repr) in
        let er := snd (resolve_target td element_repr) in
        let d := dispatch str_repr sel action_name value er w in
        (forall e, fst run = Raise e ->
                   exn_is_Exception e = false /\ fst d = Raise e) /\
        (in_taxonomy action_name = false \/
         (exists s, action_name = Some s /\ mem s with_value_op = true /\
                    optstr_truthy value = false) \/
         (exists s, action_name = Some s /\ mem s element_guarded = true /\
                    py_truthy sel = false) ->
         fst run = Return (error_msg str_repr action_name er
                                     (unsupported action_name)) /\
         contains "Unsupported or improperly specified action"
                  (error_msg str_repr action_name er (unsupported action_name)) /\
         calls (snd run) = calls w) /\
        (forall e,
           fst d = Raise e -> exn_is_Exception e = true ->
           fst run = Return (error_msg str_repr action_name er e) /\
           contains (exn_msg e) (error_msg str_repr action_name er e)) /\
        (forall h p e,
           sel = PObj h -> calls (snd run) = calls w ++ [p] ->
           h_respond h p = Some e ->
           if exn_is_Exception e
           then fst run = Return (error_msg str_repr action_name er e) /\
                contains (exn_msg e) (error_msg str_repr action_name er e)
           else fst run = Raise e)
    end /\
    (forall v0 er0 w0,
       fst (perform_action_any str_repr TNone (Some "CLICK") v0 er0 w0)
       = Return ("Error performing CLICK on " ++ er0
                 ++ ": Unsupported or improperly specified action: CLICK")%string).
Proof.
  intros str_repr target_element action_name value element_repr w run.
  split.
  2:{ intros v0 er0 w0. rewrite perform_action_any_eq. cbn [target_view].
      rewrite perform_action_eq. cbn [resolve_target fst snd].
      rewrite dispatch_element_missing by reflexivity. reflexivity. }
  subst run. rewrite perform_action_any_eq.
  destruct (target_view target_element) as [td|]; [|reflexivity].
  intros sel er d. subst d.
  set (run := perform_action str_repr td action_name value element_repr w).
  assert (Hrun : run = match dispatch str_repr sel action_name value er w with
                       | (Return _, w') =>
                           (Return (action_summary str_repr action_name er value),
                            set_taken_actions
                              (taken_actions w'
                               ++ [action_summary str_repr action_name er value]) w')
                       | (Raise e, w') =>
                           if exn_is_Exception e then
                             (Return (error_msg str_repr action_name er e),
                              set_logged
                                (logged w'
                                 ++ [(ERROR, error_msg str_repr action_name er e)])
                                w')
                           else (Raise e, w')
                       end)
    by (subst run; apply perform_action_eq).
  assert (Hraise : forall e,
             fst (dispatch str_repr sel action_name value er w) = Raise e ->
             exn_is_Exception e = true ->
             fst run = Return (error_msg str_repr action_name er e) /\
             contains (exn_msg e) (error_msg str_repr action_name er e)).
  { intros e He Hex. rewrite Hrun.
    destruct (dispatch str_repr sel action_name value er w) as [[[]|e'] w'];
      simpl in He; [discriminate|]. injection He as ->. rewrite Hex.
    split; [reflexivity|].
    unfold error_msg. rewrite <- !str_app_assoc. apply contains_suffix. }
  assert (Hlast : dispatch str_repr sel action_name value er w
                  = (Raise (unsupported action_name), w) ->
                  fst run = Return (error_msg str_repr action_name er
                                              (unsupported action_name)) /\
                  contains "Unsupported or improperly specified action"
                           (error_msg str_repr action_name er
                                      (unsupported action_name)) /\
                  calls (snd run) = calls w).
  { intros E. split; [apply Hraise; [now rewrite E | reflexivity]|]. split.
    - exists ("Error performing " ++ optstr_str action_name ++ " on "
              ++ py_str str_repr er ++ ": ")%string,
             (": " ++ optstr_str action_name)%string.
      unfold error_msg, unsupported, ValueError; cbn [exn_msg mkExn].
      rewrite !str_app_assoc. reflexivity.
    - rewrite Hrun, E. reflexivity. }
  assert (Hcalls : forall p, calls (snd run) = calls w ++ [p] ->
             calls (snd (dispatch str_repr sel action_name value er w))
             = calls w ++ [p]).
  { intros p. rewrite Hrun.
    destruct (dispatch str_repr sel action_name value er w) as [[[]|e'] w'];
      [now idtac|]. now destruct (exn_is_Exception e'). }
  split; [| split; [| split]].
  - intros e He. rewrite Hrun in He.
    destruct (dispatch str_repr sel action_name value er w) as [[[]|e'] w'];
      [discriminate He|].
    destruct (exn_is_Exception e') eqn:Hex; [discriminate He|].
    cbn in He. injection He as ->. auto.
  - intros H. apply Hlast.
    destruct H as [H | [(s & -> & Hs & Hv) | (s & -> & Hs & Hsel)]].
    + now apply dispatch_unknown.
    + now apply dispatch_value_missing.
    + now apply dispatch_element_missing.
  - exact Hraise.
  - intros h p e Hsel Hp He.
    assert (Hd : fst (dispatch str_repr sel action_name value er w) = Raise e)
      by (apply (@dispatch_relays str_repr sel action_name value er w h p e);
          auto).
    destruct (exn_is_Exception e) eqn:Hex; [now apply Hraise|].
    rewrite Hrun.
    destruct (dispatch str_repr sel action_name value er w) as [[[]|e'] w'];
      cbn in Hd; [discriminate Hd|]. injection Hd as ->. now rewrite Hex.
Qed.

Lemma perform_action_isolates_exceptions_witness :
  fst (perform_action_any plain_repr TNone (Some "DANCE") None "" empty_world)
  = Return "Error performing DANCE on : Unsupported or improperly specified action: DANCE"
  /\
  fst (perform_action_any plain_repr
         (TDict [("selector", PObj stale); ("description", PStr "Buy")])
         (Some "CLICK") None "" empty_world)
  = Return "Error performing CLICK on Buy: Element is not attached to the DOM".
Proof.
  split.
  - pose proof (perform_action_isolates_exceptions plain_repr TNone
                  (Some "DANCE") None "" empty_world) as H.
    cbv zeta in H. cbn [target_view] in H. destruct H as ((_ & H & _) & _).
    destruct (H (or_introl eq_refl)) as (H1 & _). exact H1.
  - pose proof (perform_action_isolates_exceptions plain_repr
                  (TDict [("selector", PObj stale); ("description", PStr "Buy")])
                  (Some "CLICK") None "" empty_world) as H.
    cbv zeta in H. cbn [target_view] in H. destruct H as ((_ & _ & _ & H) & _).
    exact (proj1 (H stale Click
                    (mkExn "Error" "Element is not attached to the DOM")
                    eq_refl eq_refl eq_refl)).
Defined.

(** C3, as stated, fails: when the primitive call raises
    [KeyboardInterrupt], which [except Exception] does not catch, the
    exception reaches the caller and no string is returned. *)
Lemma keyboard_interrupt_propagates :
  ~ (forall str_repr target_element action_name value element_repr w,
       exists s,
         fst (perform_action_any str_repr target_element action_name value
                                 element_repr w) = Return s).
Proof.
  intros H.
  destruct (H plain_repr (TDict [("selector", PObj interrupted)])
              (Some "CLICK") None ""%string empty_world) as [s E].
  vm_compute in E. discriminate E.
Qed.

(** ** The action history under [perform_action] *)

(** C10: [taken_actions] is append-only under [perform_action]: the entries
    present before the call are a prefix of the entries after it; a dispatch
    that returns appends exactly the summary, which is also the result; a
    dispatch that raises leaves [taken_actions] as it was. *)
Theorem taken_actions_append_only :
  forall str_repr target_element action_name value element_repr w,
    let sel := fst (resolve_target target_element element_repr) in
    let er := snd (resolve_target target_element element_repr) in
    let d := fst (dispatch str_repr sel action_name value er w) in
    let run := perform_action str_repr target_element action_name value
                              element_repr w in
    (exists suffix, taken_actions (snd run) = taken_actions w ++ suffix /\
                    length suffix <= 1) /\
    (d = Return tt ->
     taken_actions (snd run)
     = taken_actions w ++ [action_summary str_repr action_name er value] /\
     fst run = Return (action_summary str_repr action_name er value)) /\
    (forall e, d = Raise e -> taken_actions (snd run) = taken_actions w).
Proof.
  intros str_repr target_element action_name value element_repr w sel er d run.
  subst run d. rewrite perform_action_eq. fold sel er.
  destruct (dispatch_touches str_repr sel action_name value er w)
    as (_ & _ & Ht & _).
  destruct (dispatch str_repr sel action_name value er w) as [[[]|e] w'];
    cbn [fst snd] in *.
  - cbn [set_taken_actions taken_actions]. rewrite Ht. split; [| split].
    + eexists. split; [reflexivity | simpl; lia].
    + intros _. split; reflexivity.
    + discriminate.
  - assert (Hsame : taken_actions
                      (snd (if exn_is_Exception e
                            then (Return (error_msg str_repr action_name er e),
                                  set_logged
                                    (logged w'
                                     ++ [(ERROR, error_msg str_repr action_name er e)])
                                    w')
                            else (Raise e, w')))
                    = taken_actions w)
      by (destruct (exn_is_Exception e); cbn; exact Ht).
    rewrite Hsame. split; [| split].
    + exists []. rewrite app_nil_r. split; [reflexivity | simpl; lia].
    + discriminate.
    + reflexivity.
Qed.

Lemma taken_actions_append_only_witness :
  taken_actions
    (snd (perform_action plain_repr
            (Some [("selector", PObj page); ("description", PStr "Search")])
            (Some "TYPE") (Some "rocq") "" empty_world))
  = ["TYPE: Search -> rocq"]
  /\
  taken_actions
    (snd (perform_action plain_repr
            (Some [("selector", PObj stale)]) (Some "HOVER") None "menu"
            empty_world))
  = [].
Proof.
  split.
  - pose proof (taken_actions_append_only plain_repr
                  (Some [("selector", PObj page); ("description", PStr "Search")])
                  (Some "TYPE") (Some "rocq") "" empty_world) as H.
    cbv zeta in H. destruct H as (_ & H & _).
    destruct (H eq_refl) as (H1 & _). exact H1.
  - pose proof (taken_actions_append_only plain_repr
                  (Some [("selector", PObj stale)]) (Some "HOVER") None "menu"
                  empty_world) as H.
    cbv zeta in H. destruct H as (_ & _ & H).
    exact (H (mkExn "Error" "Element is not attached to the DOM") eq_refl).
Defined.

(** C1, as the code has it: a call of [perform_action] ends in one of four
    ways.  The [get] lookup on a truthy target that is not a dict raises
    [AttributeError] before anything else happens.  Otherwise, after a
    dispatch that returns, the summary is returned and appended to
    [taken_actions]; after a dispatch that raises an [Exception], the error
    message is returned and written to the log at level ERROR, and
    [taken_actions] is left as it was; after a dispatch that raises any
    other exception, that exception reaches the caller, nothing is logged
    and [taken_actions] is left as it was. *)
Theorem perform_action_records_outcome :
  forall str_repr target_element action_name value element_repr w,
    let run := perform_action_any str_repr target_element action_name value
                                  element_repr w in
    match target_view target_element with
    | None =>
        run = (Raise (AttributeError (target_value target_element) "get"), w)
    | Some td =>
        let sel := fst (resolve_target td element_repr) in
        let er := snd (resolve_target td element_repr) in
        let d := dispatch str_repr sel action_name value er w in
        (fst d = Return tt /\
         fst run = Return (action_summary str_repr action_name er value) /\
         taken_actions (snd run)
         = taken_actions w ++ [action_summary str_repr action_name er value])
        \/
        (exists e,
           fst d = Raise e /\ exn_is_Exception e = true /\
           fst run = Return (error_msg str_repr action_name er e) /\
           taken_actions (snd run) = taken_actions w /\
           logged (snd run)
           = logged w ++ [(ERROR, error_msg str_repr action_name er e)])
        \/
        (exists e,
           fst d = Raise e /\ exn_is_Exception e = false /\
           fst run = Raise e /\
           taken_actions (snd run) = taken_actions w /\
           logged (snd run) = logged w)
    end.
Proof.
  intros str_repr target_element action_name value element_repr w run.
  subst run. rewrite perform_action_any_eq.
  destruct (target_view target_element) as [td|]; [|reflexivity].
  intros sel er d. subst d. rewrite perform_action_eq. fold sel er.
  destruct (dispatch_touches str_repr sel action_name value er w)
    as (_ & _ & Ht & _ & _ & Hl).
  destruct (dispatch str_repr sel action_name value er w) as [[[]|e] w'];
    cbn [fst snd] in *.
  - left. cbn [set_taken_actions taken_actions]. now rewrite Ht.
  - right. specialize (Hl e eq_refl).
    destruct (exn_is_Exception e) eqn:Hex; [left | right]; exists e;
      cbn [fst snd set_logged taken_actions logged]; rewrite ?Ht, ?Hl; auto.
Qed.

(** C1, as stated, fails: CLICK without a target returns its error record
    and appends nothing, so not every call appends a record. *)
Lemma failed_attempt_not_appended :
  ~ (forall str_repr target_element action_name value element_repr w,
       exists record,
         taken_actions
           (snd (perform_action str_repr target_element action_name value
                                element_repr w))
         = taken_actions w ++ [record]).
Proof.
  intros H.
  destruct (H plain_repr None (Some "CLICK") None ""%string empty_world)
    as [record E].
  vm_compute in E. discriminate E.
Qed.

(** ** The taxonomy lists *)

(** C2, as the code has it: no name is in both [no_value_op] and
    [with_value_op], and every member of [with_value_op] other than SAY is in
    the default action space. *)
Theorem taxonomy_lists_consistent :
  (forall a, In a no_value_op -> In a with_value_op -> False) /\
  (forall a, In a with_value_op -> a <> "SAY"%string ->
             In a default_action_space).
Proof.
  split.
  - intros a Hn Hw. cbn [In with_value_op] in Hw.
    repeat (destruct Hw as [<- | Hw];
            [cbn [In no_value_op] in Hn;
             repeat (destruct Hn as [Hn | Hn]; [discriminate Hn|]);
             exact Hn|]).
    exact Hw.
  - intros a Hw Hsay. cbn [In with_value_op] in Hw.
    destruct Hw as [<- | [<- | [<- | [<- | [<- | []]]]]];
      try (cbn [In default_action_space]; tauto).
Qed.

Lemma taxonomy_lists_consistent_witness :
  (In "CLICK"%string with_value_op -> False) /\
  In "GOTO"%string default_action_space.
Proof.
  split.
  - apply (proj1 taxonomy_lists_consistent "CLICK"%string).
    cbn [In no_value_op]. auto.
  - apply (proj2 taxonomy_lists_consistent "GOTO"%string).
    + cbn [In with_value_op]. auto.
    + discriminate.
Defined.

(** C2, as stated, fails: SAY is value-bearing and is not in the default
    action space. *)
Lemma say_not_in_default_action_space :
  ~ (forall a, In a with_value_op -> In a default_action_space).
Proof.
  intros H.
  assert (Hin : In "SAY"%string with_value_op)
    by (do 4 right; left; reflexivity).
  apply H in Hin. cbn [In default_action_space] in Hin.
  repeat (destruct Hin as [Hin | Hin]; [discriminate Hin|]). exact Hin.
Qed.

(** ** The action space *)

Lemma forallb_is_str (l : list pyval) :
  forallb is_str l = true <-> exists names, l = map PStr names.
Proof.
  split.
  - induction l as [|v l IH]; intros H.
    + now exists [].
    + cbn [forallb] in H. apply andb_true_iff in H. destruct H as [Hv Hl].
      destruct (IH Hl) as [names ->].
      destruct v as [| b | s | l' | h]; try discriminate Hv.
      now exists (s :: names).
  - intros [names ->]. induction names as [|s names IH]; [reflexivity|].
    exact IH.
Qed.

Lemma is_list_of_str_spec (v : pyval) :
  is_list_of_str v = true <-> exists names, v = PList (map PStr names).
Proof.
  split.
  - destruct v as [| b | s | l | h]; try discriminate.
    intros H. apply forallb_is_str in H. destruct H as [names ->].
    now exists names.
  - intros [names ->]. apply forallb_is_str. now exists names.
Qed.

(** C7: [update_action_space] returns without raising.  When the argument
    is not a list of strings, [get_action_space] still returns the prior
    action space and one WARNING record is logged; when it is a list of
    strings, [get_action_space] returns the argument. *)
Theorem update_action_space_all_or_nothing :
  forall (S : pyval) new_actions w,
    action_space w = S ->
    let run := update_action_space new_actions w in
    fst run = Return tt /\
    ((forall names, new_actions <> PList (map PStr names)) ->
     fst (get_action_space (snd run)) = Return S /\
     logged (snd run)
     = logged w
       ++ [(WARNING, "Invalid action space provided. Must be a list of strings."%string)]) /\
    (forall names, new_actions = PList (map PStr names) ->
     fst (get_action_space (snd run)) = Return new_actions).
Proof.
  intros S new_actions w HS run. subst run. unfold update_action_space.
  destruct (is_list_of_str new_actions) eqn:E.
  - apply is_list_of_str_spec in E. destruct E as [names E].
    split; [reflexivity|]. split.
    + intros Hno. now elim (Hno names).
    + reflexivity.
  - split; [reflexivity|]. split.
    + intros _. cbn. now rewrite HS.
    + intros names Hn.
      assert (is_list_of_str new_actions = true)
        by (apply is_list_of_str_spec; now exists names).
      congruence.
Qed.

Lemma update_action_space_all_or_nothing_witness :
  fst (get_action_space
         (snd (update_action_space (PList [PStr "CLICK"; PNone]) empty_world)))
  = Return (PList (map PStr default_action_space))
  /\
  fst (get_action_space
         (snd (update_action_space (PList [PStr "CLICK"; PStr "TYPE"]) empty_world)))
  = Return (PList [PStr "CLICK"; PStr "TYPE"]).
Proof.
  split.
  - pose proof (@update_action_space_all_or_nothing
                  (PList (map PStr default_action_space))
                  (PList [PStr "CLICK"; PNone]) empty_world eq_refl) as H.
    cbv zeta in H. destruct H as (_ & H & _).
    refine (proj1 (H _)).
    intros [|a [|b [|c names]]]; discriminate.
  - pose proof (@update_action_space_all_or_nothing
                  (PList (map PStr default_action_space))
                  (PList [PStr "CLICK"; PStr "TYPE"]) empty_world eq_refl) as H.
    cbv zeta in H. destruct H as (_ & _ & H).
    exact (H ["CLICK"; "TYPE"]%string eq_refl).
Defined.

(** ** The grounding prompt *)

Lemma join_concat sep (l : list string) : join sep l = String.concat sep l.
Proof.
  induction l as [|x l IH]; [reflexivity|].
  destruct l as [|y l]; [reflexivity|].
  cbn [join String.concat] in *. now rewrite IH.
Qed.

Lemma join_snoc sep (c : string) (cs : list string) (c' : string) :
  join sep (c :: cs ++ [c']) = (join sep (c :: cs) ++ sep ++ c')%string.
Proof.
  revert c. induction cs as [|x cs IH]; intros c; [reflexivity|].
  change (join sep (c :: (x :: cs) ++ [c']))
    with (c ++ sep ++ join sep (x :: cs ++ [c']))%string.
  change (join sep (c :: x :: cs)) with (c ++ sep ++ join sep (x :: cs))%string.
  now rewrite IH, !str_app_assoc.
Qed.

Lemma join_terminated sep (c : string) (cs : list string) :
  (join sep (c :: cs) ++ sep)%string
  = fold_right (fun x rest => (x ++ sep ++ rest)%string) ""%string (c :: cs).
Proof.
  revert c. induction cs as [|x cs IH]; intros c.
  - cbn. now rewrite str_app_nil_r.
  - change (join sep (c :: x :: cs)) with (c ++ sep ++ join sep (x :: cs))%string.
    rewrite !str_app_assoc, IH. reflexivity.
Qed.

(** C9: the prompt has two segments.  With [choices] absent or empty, the
    second segment is the referring description, ["Choices:"], the
    placeholder ["No choices available"] and the three formats.  With one
    or more choices the placeholder is replaced by the rendered choices:
    one choice is rendered as itself, two or three as themselves with one
    line feed between neighbours, and in general the rendering is the
    choices in the given order separated by single line feeds; it is the
    library's [String.concat] on a line feed, followed by a line feed it
    is every choice followed by a line feed, and one more choice at the
    end adds a line feed and that choice. *)
Theorem generate_prompt_choices :
  forall str_repr p task previous,
    let query :=
      (system_prompt p ++ nl ++ action_space_text p ++ nl ++ "Task: "
       ++ optstr_str task ++ nl ++ "Previous Actions: "
       ++ py_str str_repr previous ++ nl ++ question_description p)%string in
    let referring (rendered : string) :=
      (referring_description p ++ nl ++ "Choices:" ++ nl ++ rendered ++ nl ++ nl
       ++ element_format p ++ nl ++ action_format p ++ nl ++ value_format p)%string in
    generate_prompt str_repr p task previous None
    = [query; referring "No choices available"%string] /\
    generate_prompt str_repr p task previous (Some [])
    = [query; referring "No choices available"%string] /\
    contains "No choices available" (referring "No choices available"%string) /\
    (forall c,
       generate_prompt str_repr p task previous (Some [c])
       = [query; referring c]) /\
    (forall a b,
       generate_prompt str_repr p task previous (Some [a; b])
       = [query; referring (a ++ String "010" b)%string]) /\
    (forall a b c,
       generate_prompt str_repr p task previous (Some [a; b; c])
       = [query; referring (a ++ String "010" (b ++ String "010" c))%string]) /\
    (forall c cs,
       exists rendered,
         generate_prompt str_repr p task previous (Some (c :: cs))
         = [query; referring rendered] /\
         rendered = String.concat (String "010" EmptyString) (c :: cs) /\
         (rendered ++ String "010" EmptyString)%string
         = fold_right (fun x rest => (x ++ String "010" rest)%string)
                      ""%string (c :: cs) /\
         forall c',
           generate_prompt str_repr p task previous (Some (c :: cs ++ [c']))
           = [query; referring (rendered ++ String "010" c')%string]).
Proof.
  intros str_repr p task previous query referring.
  assert (Hq : forall choices,
             generate_prompt str_repr p task previous choices
             = [query; referring (choices_str choices)]).
  { intros choices. unfold generate_prompt, _generate_new_query_prompt,
      _generate_new_referring_prompt. subst query referring. cbn [app].
    now rewrite !str_app_assoc. }
  split; [apply Hq|]. split; [apply Hq|]. split.
  { subst referring.
    exists (referring_description p ++ nl ++ "Choices:" ++ nl)%string,
           (nl ++ nl ++ element_format p ++ nl ++ action_format p ++ nl
            ++ value_format p)%string.
    now rewrite !str_app_assoc. }
  split; [intros; apply Hq|]. split; [intros; apply Hq|].
  split; [intros; apply Hq|].
  intros c cs. exists (join nl (c :: cs)).
  split; [apply Hq|]. split; [apply join_concat|]. split.
  - apply (join_terminated nl).
  - intros c'. rewrite Hq. cbn [choices_str]. now rewrite join_snoc.
Qed.

(** ** Element-free actions and the selector *)

(** C4: at [target_element=None] the element-free actions that make a
    primitive call do not succeed: SCROLL UP, SCROLL DOWN, the four PRESS
    keys, NEW TAB, CLOSE TAB, GO BACK, GO FORWARD and GOTO with a value look
    their method up on [None], make no call, append nothing and return the
    [AttributeError] record.  TERMINATE and NONE, which make no call, return
    their summary and append it.  All of these names are in the
    [no_element_op] list of the class. *)
Theorem element_free_without_target :
  forall str_repr value element_repr w,
    forallb (fun op => mem (fst op) no_element_op)
            (page_level_ops
             ++ [("GOTO", "goto"); ("TERMINATE", ""); ("NONE", "")]%string)
    = true /\
    Forall (fails_on_none str_repr value element_repr w) page_level_ops /\
    (forall c url,
       fails_on_none str_repr (Some (String c url)) element_repr w
                     ("GOTO", "goto")%string) /\
    (let run := perform_action str_repr None (Some "TERMINATE") value
                               element_repr w in
     fst run = Return (action_summary str_repr (Some "TERMINATE")
                                      (PStr element_repr) value) /\
     calls (snd run) = calls w /\
     taken_actions (snd run)
     = taken_actions w ++ [action_summary str_repr (Some "TERMINATE")
                                          (PStr element_repr) value]) /\
    (let run := perform_action str_repr None (Some "NONE") value
                               element_repr w in
     fst run = Return (action_summary str_repr (Some "NONE")
                                      (PStr element_repr) value) /\
     calls (snd run) = calls w /\
     taken_actions (snd run)
     = taken_actions w ++ [action_summary str_repr (Some "NONE")
                                          (PStr element_repr) value]).
Proof.
  intros str_repr value element_repr w.
  split; [reflexivity|].
  split; [| split; [| split]].
  - unfold page_level_ops.
    repeat (apply Forall_cons; [repeat split; reflexivity|]).
    apply Forall_nil.
  - intros c url. repeat split; reflexivity.
  - repeat split; reflexivity.
  - repeat split; reflexivity.
Qed.

(** ** Value-bearing actions *)

(** Without a truthy value the five value-bearing actions make no call and
    return the unsupported record, whatever the target. *)
Lemma value_bearing_needs_value str_repr target_element s value element_repr w :
  mem s with_value_op = true ->
  optstr_truthy value = false ->
  let run := perform_action str_repr target_element (Some s) value element_repr w in
  fst run
  = Return (error_msg str_repr (Some s)
              (snd (resolve_target target_element element_repr))
              (unsupported (Some s))) /\
  calls (snd run) = calls w /\
  taken_actions (snd run) = taken_actions w.
Proof.
  intros Hs Hv run. subst run. rewrite perform_action_eq.
  rewrite dispatch_value_missing by assumption. repeat split; reflexivity.
Qed.

(** On a handle, with a non-empty value, TYPE, SELECT and GOTO make exactly
    the call [fill], [select_option] and [goto] with that value. *)
Lemma type_select_goto_on_handle str_repr target_element h c v element_repr w :
  fst (resolve_target target_element element_repr) = PObj h ->
  let value := Some (String c v) in
  calls (snd (perform_action str_repr target_element (Some "TYPE") value
                             element_repr w))
  = calls w ++ [Fill (String c v)] /\
  calls (snd (perform_action str_repr target_element (Some "SELECT") value
                             element_repr w))
  = calls w ++ [SelectOption (String c v)] /\
  calls (snd (perform_action str_repr target_element (Some "GOTO") value
                             element_repr w))
  = calls w ++ [Goto (String c v)].
Proof.
  intros Hsel value. subst value. rewrite !perform_action_eq, Hsel.
  unfold dispatch, bind, call_method. cbn.
  repeat split;
    (match goal with |- context [h_respond h ?p] =>
       destruct (h_respond h p) as [e|] end;
     [destruct (exn_is_Exception e)|]; reflexivity).
Qed.

(** SAY and MEMORIZE with a non-empty value make no call and are recorded. *)
Lemma say_memorize_no_primitive str_repr target_element c v element_repr w :
  let value := Some (String c v) in
  let er := snd (resolve_target target_element element_repr) in
  forall s, s = "SAY"%string \/ s = "MEMORIZE"%string ->
    let run := perform_action str_repr target_element (Some s) value
                              element_repr w in
    fst run = Return (action_summary str_repr (Some s) er value) /\
    calls (snd run) = calls w.
Proof.
  intros value er s Hs run. subst run value er. rewrite perform_action_eq.
  destruct (py_truthy (fst (resolve_target target_element element_repr))) eqn:E;
    destruct Hs as [-> | ->]; unfold dispatch; rewrite E; cbn; split; reflexivity.
Qed.

(** C5: at GOTO with a non-empty value and [target_element=None], no [goto]
    call is made: the method is looked up on [None], the call trace is left
    as it was and the [AttributeError] record is returned. *)
Theorem goto_without_target_makes_no_call :
  forall str_repr c url element_repr w,
    let run := perform_action str_repr None (Some "GOTO") (Some (String c url))
                              element_repr w in
    calls (snd run) = calls w /\
    fst run = Return (none_error "GOTO" "goto" element_repr) /\
    taken_actions (snd run) = taken_actions w.
Proof. intros. repeat split; reflexivity. Qed.

(** ** Scrolling *)

(** On a handle, SCROLL DOWN makes exactly one call, [evaluate] of the
    script that scrolls by plus half the inner height, and SCROLL UP exactly
    one call, [evaluate] of the script that scrolls by minus half of it. *)
Lemma scroll_on_handle str_repr target_element h value element_repr w :
  fst (resolve_target target_element element_repr) = PObj h ->
  calls (snd (perform_action str_repr target_element (Some "SCROLL DOWN") value
                             element_repr w))
  = calls w ++ [Evaluate "window.scrollBy(0, window.innerHeight / 2)"] /\
  calls (snd (perform_action str_repr target_element (Some "SCROLL UP") value
                             element_repr w))
  = calls w ++ [Evaluate "window.scrollBy(0, -window.innerHeight / 2)"].
Proof.
  intros Hsel. rewrite !perform_action_eq, Hsel.
  unfold dispatch, bind, call_method. cbn.
  split;
    (match goal with |- context [h_respond h ?p] =>
       destruct (h_respond h p) as [e|] end;
     [destruct (exn_is_Exception e)|]; reflexivity).
Qed.

(** C6: at [target_element=None], SCROLL DOWN and SCROLL UP make no
    [evaluate] call: the call trace is left as it was and the
    [AttributeError] record is returned. *)
Theorem scroll_without_target_makes_no_call :
  forall str_repr value element_repr w,
    (let run := perform_action str_repr None (Some "SCROLL DOWN") value
                               element_repr w in
     calls (snd run) = calls w /\
     fst run = Return (none_error "SCROLL DOWN" "evaluate" element_repr)) /\
    (let run := perform_action str_repr None (Some "SCROLL UP") value
                               element_repr w in
     calls (snd run) = calls w /\
     fst run = Return (none_error "SCROLL UP" "evaluate" element_repr)).
Proof. intros. repeat split; reflexivity. Qed.

(** ** The action history on disk *)

Lemma file_get_put_eq path content files :
  file_get path (file_put path content files) = Some content.
Proof.
  induction files as [|[p c] files IH]; cbn [file_put file_get].
  - now rewrite String.eqb_refl.
  - destruct (String.eqb p path) eqn:E; cbn [file_get]; now rewrite E.
Qed.

Lemma file_put_put path c1 c2 files :
  file_put path c2 (file_put path c1 files) = file_put path c2 files.
Proof.
  induction files as [|[p c] files IH]; cbn [file_put].
  - now rewrite String.eqb_refl.
  - destruct (String.eqb p path) eqn:E; cbn [file_put]; rewrite E;
      [reflexivity | now rewrite IH].
Qed.

Lemma file_put_same path c files :
  file_get path files = Some c -> file_put path c files = files.
Proof.
  induction files as [|[p c'] files IH]; cbn [file_get file_put];
    [discriminate|].
  destruct (String.eqb p path); intros H.
  - now injection H as ->.
  - now rewrite IH.
Qed.

Lemma mem_app_last (x : string) (l : list string) : mem x (l ++ [x]) = true.
Proof.
  unfold mem. rewrite existsb_app. cbn [existsb].
  rewrite String.eqb_refl. now rewrite orb_true_r.
Qed.

(** *** Name resolution *)

(** Whether a walk arrives, and where, depends on the directories only. *)
Lemma walk_same_dirs f f' label label' cs :
  fs_dirs f = fs_dirs f' ->
  forall pos q,
    walk f label pos cs = Return q -> walk f' label' pos cs = Return q.
Proof.
  intros Hd. induction cs as [|c cs IH]; intros pos q; cbn [walk];
    [trivial|].
  destruct (String.eqb c ""); [apply IH|].
  unfold is_dir. rewrite <- Hd.
  destruct (always_dir pos || mem (key_of pos) (fs_dirs f)); [apply IH|].
  destruct (has_file f pos); discriminate.
Qed.

Lemma walk_app f label cs1 cs2 :
  forall pos q,
    walk f label pos (cs1 ++ cs2) = Return q ->
    exists mid, walk f label pos cs1 = Return mid /\
                walk f label mid cs2 = Return q.
Proof.
  induction cs1 as [|c cs1 IH]; intros pos q; cbn [walk app].
  - intros H. now exists pos.
  - destruct (String.eqb c ""); [apply IH|].
    destruct (is_dir f pos); [apply IH|].
    destruct (has_file f pos); discriminate.
Qed.

Lemma walk_app_intro f label cs1 cs2 pos mid q :
  walk f label pos cs1 = Return mid ->
  walk f label mid cs2 = Return q ->
  walk f label pos (cs1 ++ cs2) = Return q.
Proof.
  revert pos. induction cs1 as [|c cs1 IH]; intros pos; cbn [walk app].
  - now intros [= ->].
  - destruct (String.eqb c ""); [apply IH|].
    destruct (is_dir f pos); [apply IH|].
    destruct (has_file f pos); discriminate.
Qed.

(** A walk over a component that is not empty starts in a directory. *)
Lemma walk_starts_in_dir f label cs :
  forall pos q,
    walk f label pos cs = Return q ->
    (exists c, In c cs /\ c <> ""%string) ->
    is_dir f pos = true.
Proof.
  induction cs as [|c cs IH]; intros pos q H (x & Hin & Hx);
    [destruct Hin|].
  cbn [walk] in H. destruct (String.eqb_spec c "") as [-> | Hc].
  - destruct Hin as [<- | Hin]; [now elim Hx|].
    apply (IH pos q H). now exists x.
  - destruct (is_dir f pos); [reflexivity|].
    destruct (has_file f pos); discriminate.
Qed.

Lemma components_from_app cur a b :
  components_from cur (a ++ "/" ++ b) = components_from cur a ++ components b.
Proof.
  revert cur. induction a as [|c a IH]; intros cur; cbn.
  - reflexivity.
  - destruct (Ascii.eqb c "/"); cbn; now rewrite IH.
Qed.

Lemma components_from_not_nil cur s : components_from cur s <> [].
Proof.
  revert cur. induction s as [|c s IH]; intros cur; cbn; [discriminate|].
  destruct (Ascii.eqb c "/"); [discriminate | apply IH].
Qed.

Lemma components_from_plain s :
  has_slash s = false -> forall cur, components_from cur s = [(cur ++ s)%string].
Proof.
  induction s as [|c s IH]; intros Hs cur; cbn.
  - now rewrite str_app_nil_r.
  - cbn [has_slash] in Hs. apply orb_false_iff in Hs. destruct Hs as [Hc Hs].
    rewrite Hc, (IH Hs). now rewrite str_app_assoc.
Qed.

Lemma endswith_slash_split s :
  endswith_slash s = true -> exists s', s = (s' ++ "/")%string.
Proof.
  induction s as [|c s IH]; [discriminate|]. cbn [endswith_slash].
  destruct s as [|c' s].
  - intros H. apply Ascii.eqb_eq in H. subst c. now exists ""%string.
  - intros H. destruct (IH H) as [s' ->]. now exists (String c s').
Qed.

Lemma startswith_slash_app a b :
  a <> ""%string -> startswith "/" (a ++ b) = startswith "/" a.
Proof. destruct a as [|c a]; [now intros H; elim H | reflexivity]. Qed.

Lemma last_app_not_nil {A} (l1 l2 : list A) d :
  l2 <> [] -> last (l1 ++ l2) d = last l2 d.
Proof.
  intros H. induction l1 as [|x l1 IH]; [reflexivity|].
  cbn [app]. destruct (l1 ++ l2) eqn:E.
  - apply app_eq_nil in E. now destruct E.
  - rewrite <- IH. reflexivity.
Qed.

Lemma last_in_not_nil {A} (l : list A) d : l <> [] -> In (last l d) l.
Proof.
  induction l as [|x l IH]; [now intros H; elim H|]. intros _.
  destruct l as [|y l]; [now left|]. right. apply IH. discriminate.
Qed.

(** *** What the file operations leave alone *)

Lemma kept_bind {A B} (m : M A) (k : A -> M B) :
  manager_kept m -> (forall a, manager_kept (k a)) -> manager_kept (bind m k).
Proof.
  intros Hm Hk w. unfold bind. specialize (Hm w).
  destruct (m w) as [[a|e] w1]; cbn [snd] in *.
  - specialize (Hk a w1). cbv zeta in Hk.
    destruct Hk as (K1 & K2 & K3 & K4 & K5).
    destruct Hm as (M1 & M2 & M3 & M4 & M5).
    rewrite K1, K2, K3, K4, K5. auto.
  - exact Hm.
Qed.

Lemma kept_ret {A} (a : A) : manager_kept (ret a).
Proof. intros w. cbn. auto. Qed.

Lemma kept_logger lv msg : manager_kept (logger lv msg).
Proof. intros w. cbn. auto. Qed.

Lemma kept_exists path : manager_kept (os_path_exists path).
Proof. intros w. cbn. auto. Qed.

Lemma kept_mkdir path : manager_kept (os_mkdir path).
Proof.
  intros w. unfold os_mkdir.
  destruct (resolve (fs w) path) as [pos|e]; [|cbn; auto].
  destruct (is_dir (fs w) pos || has_file (fs w) pos); [cbn; auto|].
  destruct (fs_refuses (fs w) (ReqMkdir (key_of pos))); cbn; auto.
Qed.

Lemma kept_makedirs fuel : forall name, manager_kept (makedirs_fuel fuel name).
Proof.
  induction fuel as [|fuel IH]; intros name; cbn [makedirs_fuel].
  - apply kept_mkdir.
  - destruct (path_split name) as [head0 tail0].
    destruct (if String.eqb tail0 "" then path_split head0 else (head0, tail0))
      as [head tail].
    intros w.
    destruct (negb (String.eqb head "") && negb (String.eqb tail "")
              && negb (path_exists head (fs w))); [|apply kept_mkdir].
    pose proof (IH head w) as Hh. cbv zeta in Hh.
    assert (Hafter : forall w',
               (am_config w' = am_config w /\
                action_space w' = action_space w /\
                taken_actions w' = taken_actions w /\
                calls w' = calls w /\
                fs_refuses (fs w') = fs_refuses (fs w)) ->
               let w2 := snd ((if String.eqb tail "." then (Return tt, w')
                               else os_mkdir name w') : outcome unit * world) in
               am_config w2 = am_config w /\
               action_space w2 = action_space w /\
               taken_actions w2 = taken_actions w /\
               calls w2 = calls w /\
               fs_refuses (fs w2) = fs_refuses (fs w)).
    { intros w' H'. destruct (String.eqb tail "."); [exact H'|].
      destruct (kept_mkdir name w') as (K1 & K2 & K3 & K4 & K5).
      destruct H' as (M1 & M2 & M3 & M4 & M5).
      cbv zeta. rewrite K1, K2, K3, K4, K5. auto. }
    destruct (makedirs_fuel fuel head w) as [[[]|e] w1]; cbn [snd] in Hh.
    + apply Hafter, Hh.
    + destruct (String.eqb (exn_class e) "FileExistsError");
        [apply Hafter, Hh | exact Hh].
Qed.

Lemma kept_open path : manager_kept (open_w path).
Proof.
  intros w. unfold open_w.
  destruct (resolve (fs w) path) as [pos|e]; [|cbn; auto].
  destruct (names_a_directory path || is_dir (fs w) pos); [cbn; auto|].
  destruct (fs_refuses (fs w) (ReqOpen (key_of pos))); cbn; auto.
Qed.

Lemma kept_write f text : manager_kept (f_write f text).
Proof.
  intros w. unfold f_write.
  destruct (fs_refuses (fs w) (ReqWrite f text)); cbn; auto.
Qed.

Lemma kept_for_each {A} (l : list A) (body : A -> M unit) :
  (forall a, manager_kept (body a)) -> manager_kept (for_each l body).
Proof.
  intros Hb. induction l as [|a l IH]; cbn [for_each].
  - apply kept_ret.
  - apply kept_bind; [apply Hb | intros _; exact IH].
Qed.

Lemma kept_save filename : manager_kept (save_action_history filename).
Proof.
  intros w. unfold save_action_history.
  apply (@kept_bind bool unit); [apply kept_exists|]. intros present.
  apply kept_bind.
  { destruct (negb present); [apply kept_makedirs | apply kept_ret]. }
  intros _. apply kept_bind; [apply kept_open|]. intros f.
  apply kept_bind; [|intros _; apply kept_logger].
  apply kept_for_each. intros a. apply kept_write.
Qed.

(** *** The write loop *)

(** When the write loop returns, the open file has been extended by the
    history text and every write was accepted. *)
Lemma write_loop_returns f (l : list string) :
  forall w w' c0,
    file_get f (fs_files (fs w)) = Some c0 ->
    for_each l (fun action => f_write f (action ++ nl)) w = (Return tt, w') ->
    w' = set_fs (with_files (file_put f (c0 ++ history_text l) (fs_files (fs w)))
                            (fs w)) w /\
    Forall (fun a => fs_refuses (fs w) (ReqWrite f (a ++ nl)) = None) l.
Proof.
  induction l as [|a l IH]; intros w w' c0 Hc0 Hrun;
    cbn [for_each history_text fold_right] in *.
  - injection Hrun as <-. split; [|constructor].
    rewrite str_app_nil_r, (file_put_same _ _ Hc0).
    destruct w as [cfg sp tk lg cs [dirs files refuses]]. reflexivity.
  - unfold bind in Hrun. unfold f_write at 1 in Hrun.
    destruct (fs_refuses (fs w) (ReqWrite f (a ++ nl))) eqn:Hr;
      [discriminate Hrun|].
    rewrite Hc0 in Hrun.
    match type of Hrun with for_each _ _ ?w1 = _ =>
      destruct (IH w1 w' (c0 ++ a ++ nl)%string) as [E Hall];
        [cbn; apply file_get_put_eq | exact Hrun |] end.
    split.
    + rewrite E. cbn. fold (history_text l).
      now rewrite file_put_put, !str_app_assoc.
    + constructor; [exact Hr | exact Hall].
Qed.

(** Conversely, when every write is accepted the loop returns. *)
Lemma write_loop_accepted f (l : list string) :
  forall w c0,
    file_get f (fs_files (fs w)) = Some c0 ->
    Forall (fun a => fs_refuses (fs w) (ReqWrite f (a ++ nl)) = None) l ->
    for_each l (fun action => f_write f (action ++ nl)) w
    = (Return tt,
       set_fs (with_files (file_put f (c0 ++ history_text l) (fs_files (fs w)))
                          (fs w)) w).
Proof.
  induction l as [|a l IH]; intros w c0 Hc0 Hall;
    cbn [for_each history_text fold_right].
  - rewrite str_app_nil_r, (file_put_same _ _ Hc0).
    destruct w as [cfg sp tk lg cs [dirs files refuses]]. reflexivity.
  - inversion Hall as [|? ? Hr Hall']; subst.
    unfold bind. unfold f_write at 1. rewrite Hr, Hc0.
    match goal with |- context [for_each l _ ?w1] =>
      rewrite (IH w1 (c0 ++ a ++ nl)%string);
        [| cbn; apply file_get_put_eq | exact Hall'] end.
    cbn. fold (history_text l). now rewrite file_put_put, !str_app_assoc.
Qed.

Lemma is_dir_same_dirs f f' pos :
  fs_dirs f = fs_dirs f' -> is_dir f' pos = is_dir f pos.
Proof. intros H. unfold is_dir. now rewrite H. Qed.

Lemma resolve_same_dirs f f' path pos :
  fs_dirs f = fs_dirs f' ->
  resolve f path = Return pos -> resolve f' path = Return pos.
Proof.
  intros Hd. unfold resolve. destruct (String.eqb path ""); [discriminate|].
  now apply walk_same_dirs.
Qed.

Lemma exists_of_dir f path pos :
  resolve f path = Return pos -> is_dir f pos = true ->
  path_exists path f = true.
Proof. intros Hr Hd. unfold path_exists. now rewrite Hr, Hd. Qed.

(** When the joined name of a file resolves, the directory it was joined
    from exists. *)
Lemma joined_resolves_parent f directory filename pos :
  startswith "/" filename = false ->
  directory <> ""%string ->
  resolve f (os_path_join directory filename) = Return pos ->
  names_a_directory (os_path_join directory filename) = false ->
  exists q, resolve f directory = Return q /\ is_dir f q = true.
Proof.
  intros Hrel Hne Hres Hname.
  assert (Hshape : exists a,
             os_path_join directory filename = (a ++ "/" ++ filename)%string /\
             (components directory = components a
              \/ components directory = components a ++ [""%string]) /\
             (a ++ "/" ++ filename)%string <> ""%string /\
             startswith "/" (a ++ "/" ++ filename) = startswith "/" directory).
  { unfold os_path_join. rewrite Hrel.
    destruct (String.eqb_spec directory ""); [contradiction|]. cbn [orb].
    destruct (endswith_slash directory) eqn:E.
    - apply endswith_slash_split in E. destruct E as [a ->]. exists a.
      rewrite str_app_assoc. split; [reflexivity|]. split.
      + right. unfold components.
        change (a ++ "/")%string with (a ++ "/" ++ "")%string.
        now rewrite components_from_app.
      + split; [destruct a; discriminate|].
        destruct a as [|c a]; reflexivity.
    - exists directory. split; [reflexivity|]. split; [now left|].
      split; [destruct directory; [contradiction | discriminate]|].
      now apply startswith_slash_app. }
  destruct Hshape as (a & Hjoin & Hcomp & Hnonempty & Hstart).
  rewrite Hjoin in Hres, Hname. unfold resolve in Hres.
  destruct (String.eqb_spec (a ++ "/" ++ filename)%string ""); [contradiction|].
  unfold components in Hres. rewrite components_from_app in Hres.
  apply walk_app in Hres. destruct Hres as (q & Hq & Hrest).
  rewrite Hstart in Hq.
  exists q. split.
  - unfold resolve. destruct (String.eqb_spec directory ""); [contradiction|].
    destruct Hcomp as [-> | ->].
    + eapply walk_same_dirs; [reflexivity | exact Hq].
    + eapply walk_app_intro;
        [eapply walk_same_dirs; [reflexivity | exact Hq] | reflexivity].
  - eapply walk_starts_in_dir; [exact Hrest|].
    exists (last (components filename) ""%string). split.
    + apply last_in_not_nil. apply components_from_not_nil.
    + unfold names_a_directory, components in Hname.
      rewrite components_from_app in Hname.
      rewrite last_app_not_nil in Hname by apply components_from_not_nil.
      intros E. now rewrite E in Hname.
Qed.

(** *** A save that returns *)

Lemma save_returns filename w w' :
  save_action_history filename w = (Return tt, w') ->
  let directory := save_file_dir (am_config w) in
  let path := os_path_join directory filename in
  exists w1 pos,
    (if path_exists directory (fs w) then w1 = w
     else os_makedirs directory w = (Return tt, w1)) /\
    resolve (fs w1) path = Return pos /\
    names_a_directory path = false /\
    is_dir (fs w1) pos = false /\
    fs_refuses (fs w1) (ReqOpen (key_of pos)) = None /\
    Forall (fun a => fs_refuses (fs w1) (ReqWrite (key_of pos) (a ++ nl)) = None)
           (taken_actions w) /\
    w' = set_logged
           (logged w1 ++ [(INFO, "Action history saved to " ++ path)%string])
           (set_fs (with_files
                      (file_put (key_of pos) (history_text (taken_actions w))
                                (fs_files (fs w1)))
                      (fs w1)) w1).
Proof.
  intros Hrun directory path. unfold save_action_history in Hrun.
  fold directory in Hrun. fold path in Hrun.
  unfold bind at 1 in Hrun. unfold os_path_exists at 1 in Hrun.
  unfold bind at 1 in Hrun.
  destruct ((if negb (path_exists directory (fs w))
             then os_makedirs directory else ret tt) w) as [[[]|e] w1] eqn:E1;
    [|discriminate Hrun].
  exists w1.
  unfold bind at 1 in Hrun. unfold open_w at 1 in Hrun.
  destruct (resolve (fs w1) path) as [pos|e] eqn:Hres; [|discriminate Hrun].
  destruct (names_a_directory path) eqn:Hname; [discriminate Hrun|].
  destruct (is_dir (fs w1) pos) eqn:Hdir; [discriminate Hrun|].
  cbn [orb] in Hrun.
  destruct (fs_refuses (fs w1) (ReqOpen (key_of pos))) eqn:Hopen;
    [discriminate Hrun|].
  exists pos. unfold bind at 1 in Hrun.
  match type of Hrun with
  | context [for_each ?l ?body ?w2] =>
      destruct (for_each l body w2) as [[[]|e] w3] eqn:E3;
        [|discriminate Hrun];
      destruct (@write_loop_returns (key_of pos) l w2 w3 ""%string) as [E Hall];
        [cbn; apply file_get_put_eq | exact E3 |]
  end.
  unfold logger in Hrun. injection Hrun as <-.
  split.
  { destruct (path_exists directory (fs w)); cbn [negb] in E1;
      [now injection E1 | exact E1]. }
  split; [reflexivity|]. split; [reflexivity|]. split; [exact Hdir|].
  split; [exact Hopen|]. split; [exact Hall|].
  rewrite E. cbn. now rewrite file_put_put.
Qed.

(** After a save that returns, reading the file gives the history text. *)
Lemma save_returns_text filename w w' :
  save_action_history filename w = (Return tt, w') ->
  file_text (os_path_join (save_file_dir (am_config w)) filename) (fs w')
  = Some (history_text (taken_actions w)).
Proof.
  intros Hrun. destruct (save_returns _ _ Hrun)
    as (w1 & pos & _ & Hres & Hname & Hdir & _ & _ & ->).
  unfold file_text. cbn [fs set_logged set_fs].
  match goal with |- context [resolve ?f' ?p] =>
    assert (Hres' : resolve f' p = Return pos)
      by (apply (@resolve_same_dirs (fs w1)); [reflexivity | exact Hres]);
    assert (Hdir' : is_dir f' pos = false)
      by (rewrite (@is_dir_same_dirs (fs w1)); [exact Hdir | reflexivity])
  end.
  rewrite Hres', Hname, Hdir'. cbn. apply file_get_put_eq.
Qed.

(** After a save that returns, with a file name that is not absolute, the
    save directory exists. *)
Lemma save_returns_directory filename w w' :
  save_action_history filename w = (Return tt, w') ->
  startswith "/" filename = false ->
  path_exists (save_file_dir (am_config w)) (fs w') = true.
Proof.
  intros Hrun Hrel. destruct (save_returns _ _ Hrun)
    as (w1 & pos & Hmk & Hres & Hname & _ & _ & _ & ->).
  set (directory := save_file_dir (am_config w)) in *.
  assert (Hne : directory <> ""%string).
  { intros E. rewrite E in Hmk. cbn in Hmk. discriminate Hmk. }
  destruct (joined_resolves_parent _ _ Hrel Hne Hres Hname) as (q & Hq & Hd).
  cbn [fs set_logged set_fs].
  apply (@exists_of_dir _ directory q).
  - apply (@resolve_same_dirs (fs w1)); [reflexivity | exact Hq].
  - rewrite (@is_dir_same_dirs (fs w1)); [exact Hd | reflexivity].
Qed.

(** *** Plain names *)

Lemma plain_name_facts s :
  plain_name s = true ->
  s <> ""%string /\ has_slash s = false /\
  String.eqb s "." = false /\ String.eqb s ".." = false /\
  String.eqb s "" = false.
Proof.
  unfold plain_name. intros H.
  apply andb_true_iff in H. destruct H as [H H4].
  apply andb_true_iff in H. destruct H as [H H3].
  apply andb_true_iff in H. destruct H as [H1 H2].
  apply negb_true_iff in H1, H2, H3, H4.
  repeat split; auto. now apply String.eqb_neq.
Qed.

Lemma no_slash_start s : has_slash s = false -> startswith "/" s = false.
Proof.
  destruct s as [|c s]; [reflexivity|]. cbn [has_slash startswith].
  intros H. apply orb_false_iff in H. destruct H as [H _].
  rewrite Ascii.eqb_sym, H. reflexivity.
Qed.

Lemma no_slash_end s : has_slash s = false -> endswith_slash s = false.
Proof.
  induction s as [|c s IH]; [reflexivity|]. cbn [has_slash endswith_slash].
  intros H. apply orb_false_iff in H. destruct H as [Hc Hs].
  destruct s; [exact Hc | now apply IH].
Qed.

Lemma has_slash_app a b : has_slash (a ++ "/" ++ b) = true.
Proof.
  induction a as [|c a IH]; [reflexivity|].
  cbn [append has_slash]. cbn [append] in IH. rewrite IH. apply orb_true_r.
Qed.

Lemma step_plain (absolute : bool) names c :
  plain_name c = true -> step (absolute, names) c = (absolute, names ++ [c]).
Proof.
  intros H. destruct (plain_name_facts _ H) as (_ & _ & Hdot & Hdd & He).
  unfold step. now rewrite He, Hdot, Hdd.
Qed.

Lemma is_dir_here f : is_dir f (false, []) = true.
Proof. reflexivity. Qed.

Lemma is_dir_plain f d :
  plain_name d = true -> is_dir f (false, [d]) = mem d (fs_dirs f).
Proof.
  intros H. destruct (plain_name_facts _ H) as (_ & _ & _ & Hdd & _).
  unfold is_dir, always_dir. cbn [snd forallb key_of join].
  now rewrite Hdd.
Qed.

Lemma resolve_plain f s :
  plain_name s = true -> resolve f s = Return (false, [s]).
Proof.
  intros H. destruct (plain_name_facts _ H) as (_ & Hs & Hdot & Hdd & He).
  unfold resolve, components. rewrite He, (no_slash_start _ Hs).
  rewrite (components_from_plain _ Hs). cbn [append walk].
  now rewrite He, is_dir_here, (@step_plain _ _ _ H).
Qed.

Lemma names_a_directory_plain s :
  plain_name s = true -> names_a_directory s = false.
Proof.
  intros H. destruct (plain_name_facts _ H) as (_ & Hs & Hdot & Hdd & He).
  unfold names_a_directory, components.
  rewrite (components_from_plain _ Hs). cbn [append last].
  now rewrite He, Hdot, Hdd.
Qed.

Lemma makedirs_plain s w :
  plain_name s = true -> os_makedirs s w = os_mkdir s w.
Proof.
  intros H. destruct (plain_name_facts _ H) as (Hne & Hs & _ & _ & He).
  unfold os_makedirs. destruct s as [|c s]; [now elim Hne|].
  cbn [String.length makedirs_fuel].
  assert (Hcut : path_split (String c s) = (""%string, String c s)).
  { unfold path_split. cbn [cut_after_last_slash].
    cbn [has_slash] in Hs. apply orb_false_iff in Hs. destruct Hs as [Hc Hs].
    now rewrite Hs, Hc. }
  rewrite Hcut. now rewrite He.
Qed.

(** The name joined from a plain directory and a plain file name, in a
    file system where the directory exists. *)
Lemma resolve_plain_joined f directory filename :
  plain_name directory = true -> plain_name filename = true ->
  mem directory (fs_dirs f) = true ->
  os_path_join directory filename = (directory ++ "/" ++ filename)%string /\
  resolve f (directory ++ "/" ++ filename) = Return (false, [directory; filename]) /\
  names_a_directory (directory ++ "/" ++ filename) = false /\
  key_of (false, [directory; filename]) = (directory ++ "/" ++ filename)%string.
Proof.
  intros Hd Hf Hmem.
  destruct (plain_name_facts _ Hd) as (Hdne & Hds & Hddot & Hddd & Hde).
  destruct (plain_name_facts _ Hf) as (Hfne & Hfs & Hfdot & Hfdd & Hfe).
  split; [| split; [| split]].
  - unfold os_path_join.
    now rewrite (no_slash_start _ Hfs), Hde, (no_slash_end _ Hds).
  - unfold resolve, components.
    destruct (String.eqb_spec (directory ++ "/" ++ filename) "") as [E|_].
    { destruct directory; [now elim Hdne | discriminate E]. }
    rewrite startswith_slash_app by exact Hdne.
    rewrite (no_slash_start _ Hds), components_from_app.
    rewrite (components_from_plain _ Hds). unfold components.
    rewrite (components_from_plain _ Hfs). cbn [append app walk].
    rewrite Hde, is_dir_here, (@step_plain _ _ _ Hd). cbn [app].
    now rewrite Hfe, (@is_dir_plain _ _ Hd), Hmem, (@step_plain _ _ _ Hf).
  - unfold names_a_directory, components. rewrite components_from_app.
    rewrite last_app_not_nil by apply components_from_not_nil.
    apply (@names_a_directory_plain _ Hf).
  - reflexivity.
Qed.

(** With plain names, no regular file in the place of the directory, no
    directory in the place of the file and nothing refused, the save
    returns. *)
Lemma save_plain_returns filename w :
  let directory := save_file_dir (am_config w) in
  plain_name directory = true ->
  plain_name filename = true ->
  (forall request, fs_refuses (fs w) request = None) ->
  file_get directory (fs_files (fs w)) = None ->
  mem (directory ++ "/" ++ filename) (fs_dirs (fs w)) = false ->
  fst (save_action_history filename w) = Return tt.
Proof.
  intros directory Hd Hf Hfree Hnofile Hnodir.
  destruct (plain_name_facts _ Hd) as (Hdne & Hds & Hddot & Hddd & Hde).
  assert (Hexists : path_exists directory (fs w) = mem directory (fs_dirs (fs w))).
  { unfold path_exists. rewrite (@resolve_plain _ _ Hd).
    rewrite (@is_dir_plain _ _ Hd). unfold has_file. cbn [key_of join].
    now rewrite Hnofile, andb_false_r, orb_false_r. }
  (* the world once the directory is there *)
  assert (Hw1 : exists w1,
             (if negb (path_exists directory (fs w))
              then os_makedirs directory else ret tt) w = (Return tt, w1) /\
             mem directory (fs_dirs (fs w1)) = true /\
             mem (directory ++ "/" ++ filename) (fs_dirs (fs w1)) = false /\
             (forall request, fs_refuses (fs w1) request = None) /\
             taken_actions w1 = taken_actions w).
  { rewrite Hexists. destruct (mem directory (fs_dirs (fs w))) eqn:Hmem.
    - exists w. cbn. auto.
    - cbn [negb]. rewrite (@makedirs_plain _ w Hd). unfold os_mkdir.
      rewrite (@resolve_plain _ _ Hd), (@is_dir_plain _ _ Hd). unfold has_file.
      cbn [key_of join]. rewrite Hmem, Hnofile, Hfree. cbn [andb orb].
      eexists. split; [reflexivity|].
      split; [apply mem_app_last|]. split; [|split; [exact Hfree | reflexivity]].
      change (mem (directory ++ "/" ++ filename)
                  (fs_dirs (fs w) ++ [directory]) = false).
      unfold mem in *. rewrite existsb_app, Hnodir. cbn [existsb orb].
      destruct (String.eqb_spec (directory ++ "/" ++ filename) directory)
        as [E|_]; [|reflexivity].
      pose proof (has_slash_app directory filename) as Hs.
      rewrite E in Hs. congruence. }
  destruct Hw1 as (w1 & E1 & Hmem1 & Hnodir1 & Hfree1 & Ht1).
  destruct (@resolve_plain_joined (fs w1) _ _ Hd Hf Hmem1)
    as (Hjoin & Hres & Hname & Hkey).
  unfold save_action_history. fold directory. rewrite Hjoin.
  set (path := (directory ++ "/" ++ filename)%string) in *.
  assert (H0 : os_path_exists directory w
               = (Return (path_exists directory (fs w)), w)) by reflexivity.
  rewrite (bind_Return _ _ _ H0), (bind_Return _ _ _ E1).
  assert (Hopen : open_w path w1
                  = (Return path,
                     set_fs (with_files (file_put path "" (fs_files (fs w1)))
                                        (fs w1)) w1)).
  { unfold open_w. rewrite Hres, Hname. unfold is_dir.
    cbn [always_dir snd forallb]. rewrite Hddd. rewrite Hkey, Hnodir1, Hfree1.
    reflexivity. }
  rewrite (bind_Return _ _ _ Hopen).
  match goal with |- context [bind _ _ ?w2] =>
    assert (Hloop : exists w3,
               for_each (taken_actions w)
                 (fun action => f_write path (action ++ nl)) w2
               = (Return tt, w3))
  end.
  { eexists. apply (@write_loop_accepted path (taken_actions w) _ ""%string).
    - cbn. apply file_get_put_eq.
    - apply Forall_forall. intros a _. cbn. apply Hfree1. }
  destruct Hloop as (w3 & Hloop).
  rewrite (bind_Return _ _ _ Hloop). reflexivity.
Qed.

(** [clear_action_history] empties the history and touches no file. *)
Lemma clear_run w :
  clear_action_history w
  = (Return tt,
     set_logged (logged w ++ [(INFO, "Action history cleared."%string)])
                (set_taken_actions [] w)).
Proof. reflexivity. Qed.

(** A history without line feeds is read back line by line. *)
Lemma lines_of_record (a rest : string) :
  has_newline a = false ->
  forall cur, lines_from cur (a ++ nl ++ rest) = (cur ++ a)%string :: lines_from "" rest.
Proof.
  induction a as [|c a IH]; intros Ha cur.
  - cbn. now rewrite str_app_nil_r.
  - cbn [has_newline] in Ha. apply orb_false_iff in Ha. destruct Ha as [Hc Ha].
    cbn [append lines_from]. rewrite Hc. rewrite (IH Ha).
    now rewrite str_app_assoc.
Qed.

Lemma file_lines_history_text (l : list string) :
  Forall (fun a => has_newline a = false) l ->
  file_lines (history_text l) = l.
Proof.
  unfold file_lines. induction 1 as [|a l Ha Hl IH]; [reflexivity|].
  cbn [history_text fold_right]. fold (history_text l).
  rewrite lines_of_record by exact Ha. now rewrite IH.
Qed.

(** C8, as the code has it: whenever [save_action_history] returns, reading
    the file at [os.path.join] of the save directory and the file name gives
    every summary of the history, in insertion order, each followed by a
    line feed, and, for a file name that is not absolute, the save
    directory exists; when no summary contains a line feed these are
    exactly the lines of the file, as many as there are summaries.  It does
    return when the directory and the file name are plain names, no regular
    file stands where the directory goes, no directory stands where the
    file goes, and the operating system refuses nothing; then the file is
    the file name under the directory, [action_history.txt] by default.
    The history is the same after the call, returned or not.
    [clear_action_history] then empties the history and leaves the file
    system as it was. *)
Theorem save_then_clear :
  forall filename w,
    let directory := save_file_dir (am_config w) in
    let path := os_path_join directory filename in
    let saved := save_action_history filename w in
    let cleared := clear_action_history (snd saved) in
    (fst saved = Return tt ->
     file_text path (fs (snd saved)) = Some (history_text (taken_actions w)) /\
     (startswith "/" filename = false ->
      path_exists directory (fs (snd saved)) = true)) /\
    (Forall (fun a => has_newline a = false) (taken_actions w) ->
     file_lines (history_text (taken_actions w)) = taken_actions w /\
     length (file_lines (history_text (taken_actions w)))
     = length (taken_actions w)) /\
    (plain_name directory = true ->
     plain_name filename = true ->
     (forall request, fs_refuses (fs w) request = None) ->
     file_get directory (fs_files (fs w)) = None ->
     mem (directory ++ "/" ++ filename) (fs_dirs (fs w)) = false ->
     fst saved = Return tt /\
     path = (directory ++ "/" ++ filename)%string) /\
    plain_name default_filename = true /\
    taken_actions (snd saved) = taken_actions w /\
    fst cleared = Return tt /\
    taken_actions (snd cleared) = [] /\
    fs (snd cleared) = fs (snd saved).
Proof.
  intros filename w directory path saved cleared.
  split; [| split; [| split; [| split; [| split]]]].
  - intros Hret. subst saved.
    destruct (save_action_history filename w) as [o w'] eqn:Hrun.
    cbn [fst snd] in *. subst o. split.
    + exact (save_returns_text _ _ Hrun).
    + intros Hrel. exact (save_returns_directory _ _ Hrun Hrel).
  - intros Hnl. rewrite (file_lines_history_text Hnl). auto.
  - intros Hd Hf Hfree Hnofile Hnodir. split.
    + now apply save_plain_returns.
    + subst path. destruct (plain_name_facts _ Hd) as (_ & Hds & _ & _ & Hde).
      destruct (plain_name_facts _ Hf) as (_ & Hfs & _).
      unfold os_path_join.
      now rewrite (no_slash_start _ Hfs), Hde, (no_slash_end _ Hds).
  - reflexivity.
  - destruct (kept_save filename w) as (_ & _ & Ht & _). exact Ht.
  - subst cleared. rewrite clear_run. cbn. auto.
Qed.

Lemma save_then_clear_witness :
  file_text "seeact_agent_files/action_history.txt"
    (fs (snd (save_action_history default_filename
                (set_taken_actions
                   ["CLICK: Buy -> No Value"; "NONE: No Element -> No Value"]
                   empty_world))))
  = Some (history_text ["CLICK: Buy -> No Value"; "NONE: No Element -> No Value"])
  /\
  file_lines
    (history_text ["CLICK: Buy -> No Value"; "NONE: No Element -> No Value"])
  = ["CLICK: Buy -> No Value"; "NONE: No Element -> No Value"]%string.
Proof.
  pose proof (save_then_clear default_filename
                (set_taken_actions
                   ["CLICK: Buy -> No Value"; "NONE: No Element -> No Value"]
                   empty_world)) as H.
  cbv zeta in H. destruct H as (Hret & Hlines & Hplain & _).
  split.
  - refine (proj1 (Hret (proj1 (Hplain eq_refl eq_refl (fun _ => eq_refl)
                                       eq_refl eq_refl)))).
  - refine (proj1 (Hlines _)). repeat constructor.
Defined.

(** C8, as stated, fails: a history of one summary that contains a line
    feed is saved as two lines, so the lines of the file are not the
    summaries. *)
Lemma multiline_summary_is_two_lines :
  ~ (forall filename w,
       exists content,
         file_get (os_path_join (save_file_dir (am_config w)) filename)
                  (fs_files (fs (snd (save_action_history filename w))))
         = Some content /\
         file_lines content = taken_actions w).
Proof.
  intros H.
  destruct (H default_filename
              (snd (perform_action plain_repr
                      (Some [("selector", PObj page); ("description", PStr "Notes")])
                      (Some "TYPE") (Some ("a" ++ nl ++ "b")%string) ""%string
                      empty_world)))
    as (content & Hc & Hl).
  vm_compute in Hc. injection Hc as <-.
  vm_compute in Hl. discriminate Hl.
Qed.

(** * Further properties *)

(** ** One log record per call *)

Lemma logs_if (b : bool) (m1 m2 : M unit) :
  logs_like_a_branch m1 -> logs_like_a_branch m2 ->
  logs_like_a_branch (if b then m1 else m2).
Proof. now destruct b. Qed.

Lemma logs_logger msg : logs_like_a_branch (logger INFO msg).
Proof. intros w. cbn. now exists msg. Qed.

Lemma logs_raise e : logs_like_a_branch (raise e).
Proof. intros w. reflexivity. Qed.

Lemma logs_call_then_log selector p msg :
  logs_like_a_branch (call_method selector p ;;; logger INFO msg).
Proof.
  intros w. unfold bind, call_method.
  destruct selector as [| b | s | l | h]; try reflexivity.
  destruct (h_respond h p); cbn; [reflexivity | now exists msg].
Qed.

#[local] Hint Resolve logs_if logs_logger logs_raise logs_call_then_log
  : dispatch.

Lemma dispatch_logs str_repr selector action_name value element_repr :
  logs_like_a_branch (dispatch str_repr selector action_name value element_repr).
Proof. unfold dispatch. auto 30 with dispatch. Qed.

(** A call of [perform_action] that returns has written exactly one record
    to the log: an INFO record when it returns the summary, the returned
    error message at level ERROR otherwise.  A call that lets an exception
    through (one that does not derive from [Exception]) has written none.
    Either way at most one primitive call is made. *)
Theorem perform_action_logs_once :
  forall str_repr target_element action_name value element_repr w,
    let er := snd (resolve_target target_element element_repr) in
    let run := perform_action str_repr target_element action_name value
                              element_repr w in
    ((exists msg,
        logged (snd run) = logged w ++ [(INFO, msg)] /\
        fst run = Return (action_summary str_repr action_name er value))
     \/
     (exists msg,
        logged (snd run) = logged w ++ [(ERROR, msg)] /\
        fst run = Return msg)
     \/
     (exists e,
        fst run = Raise e /\ exn_is_Exception e = false /\
        logged (snd run) = logged w)) /\
    (exists cs, calls (snd run) = calls w ++ cs /\ length cs <= 1).
Proof.
  intros str_repr target_element action_name value element_repr w er run.
  subst run. rewrite perform_action_eq. fold er.
  set (sel := fst (resolve_target target_element element_repr)).
  pose proof (dispatch_logs str_repr sel action_name value er w) as Hl.
  destruct (dispatch_touches str_repr sel action_name value er w)
    as (_ & _ & _ & _ & Hc & _).
  destruct (dispatch str_repr sel action_name value er w) as [[[]|e] w'];
    cbn [fst snd] in *.
  - split; [|exact Hc]. left. destruct Hl as [msg Hl]. exists msg.
    cbn. rewrite Hl. auto.
  - destruct (exn_is_Exception e) eqn:Hex; (split; [|exact Hc]).
    + right. left. eexists. cbn. rewrite Hl. split; reflexivity.
    + right. right. exists e. cbn. auto.
Qed.

(** ** What [perform_action] leaves alone *)

Lemma blind_if {A} (b : bool) (m1 m2 : M A) :
  blind_to_action_space m1 -> blind_to_action_space m2 ->
  blind_to_action_space (if b then m1 else m2).
Proof. now destruct b. Qed.

Lemma blind_logger lv msg : blind_to_action_space (logger lv msg).
Proof. intros a w. reflexivity. Qed.

Lemma blind_raise {A} e : blind_to_action_space (@raise A e).
Proof. intros a w. reflexivity. Qed.

Lemma blind_call_then_log selector p lv msg :
  blind_to_action_space (call_method selector p ;;; logger lv msg).
Proof.
  intros a w. unfold bind, call_method.
  destruct selector as [| b | s | l | h]; try reflexivity.
  cbn. destruct (h_respond h p); reflexivity.
Qed.

#[local] Hint Resolve blind_if blind_logger blind_raise blind_call_then_log
  : dispatch.

Lemma dispatch_blind str_repr selector action_name value element_repr :
  blind_to_action_space
    (dispatch str_repr selector action_name value element_repr).
Proof. unfold dispatch. auto 30 with dispatch. Qed.

(** [perform_action] does not consult the action space: in two worlds that
    differ only in [self.action_space] it returns the same string and has
    the same effects, so an action that was removed from the action space is
    still carried out. *)
Theorem perform_action_ignores_action_space :
  forall str_repr target_element action_name value element_repr a w,
    let run := perform_action str_repr target_element action_name value
                              element_repr in
    run (set_action_space a w)
    = (fst (run w), set_action_space a (snd (run w))).
Proof.
  intros str_repr target_element action_name value element_repr a w run.
  subst run. rewrite !perform_action_eq.
  rewrite dispatch_blind.
  destruct (dispatch str_repr _ action_name value _ w) as [[[]|e] w'];
    [reflexivity|].
  cbn [fst snd]. destruct (exn_is_Exception e); reflexivity.
Qed.

(** [perform_action] never changes the configuration, the action space or
    the file system. *)
Theorem perform_action_frame :
  forall str_repr target_element action_name value element_repr w,
    let w' := snd (perform_action str_repr target_element action_name value
                                  element_repr w) in
    am_config w' = am_config w /\
    action_space w' = action_space w /\
    fs w' = fs w.
Proof.
  intros str_repr target_element action_name value element_repr w w'.
  subst w'. rewrite perform_action_eq.
  destruct (dispatch_touches str_repr
              (fst (resolve_target target_element element_repr))
              action_name value
              (snd (resolve_target target_element element_repr)) w)
    as (H1 & H2 & _ & H4 & _).
  destruct (dispatch str_repr _ action_name value _ w) as [[[]|e] w'];
    cbn [fst snd] in *; [cbn; auto|].
  destruct (exn_is_Exception e); cbn; auto.
Qed.

(** ** Which requests go through *)

Lemma dispatch_without_selector str_repr action_name value element_repr w :
  if succeeds_without_target action_name value
  then exists msg,
      dispatch str_repr PNone action_name value element_repr w
      = logger INFO msg w
  else exists e,
      dispatch str_repr PNone action_name value element_repr w = (Raise e, w)
      /\ exn_is_Exception e = true.
Proof.
  destruct (in_taxonomy action_name) eqn:Hin.
  - destruct action_name as [s|]; [|discriminate Hin].
    apply mem_cases in Hin. cbn [In app no_value_op with_value_op] in Hin.
    unfold succeeds_without_target, dispatch.
    destruct (optstr_truthy value);
      repeat (destruct Hin as [<- | Hin];
              [cbn; eexists; first [reflexivity | split; reflexivity]|]);
      contradiction.
  - rewrite dispatch_unknown by exact Hin.
    replace (succeeds_without_target action_name value) with false;
      [eexists; split; reflexivity|].
    destruct action_name as [s|]; [|reflexivity].
    unfold succeeds_without_target.
    cbn [in_taxonomy mem existsb app no_value_op with_value_op] in Hin.
    repeat (apply orb_false_iff in Hin; destruct Hin as [? Hin]).
    cbn [name_is].
    repeat match goal with E : String.eqb s _ = false |- _ => rewrite E; clear E end.
    reflexivity.
Qed.

(** Without a target element, [perform_action] goes through exactly for
    TERMINATE, NONE, and SAY or MEMORIZE with a non-empty value: then it
    returns the summary and appends it.  Every other request, PRESS ENTER
    and each page-level action included, returns an error record and leaves
    the history as it was.  No primitive call is made either way. *)
Theorem perform_action_without_target :
  forall str_repr action_name value element_repr w,
    let run := perform_action str_repr None action_name value element_repr w in
    calls (snd run) = calls w /\
    if succeeds_without_target action_name value
    then fst run = Return (action_summary str_repr action_name
                                          (PStr element_repr) value) /\
         taken_actions (snd run)
         = taken_actions w ++ [action_summary str_repr action_name
                                              (PStr element_repr) value]
    else taken_actions (snd run) = taken_actions w /\
         exists e, fst run = Return (error_msg str_repr action_name
                                               (PStr element_repr) e).
Proof.
  intros str_repr action_name value element_repr w run. subst run.
  rewrite perform_action_eq. cbn [resolve_target fst snd].
  pose proof (dispatch_without_selector str_repr action_name value
                (PStr element_repr) w) as H.
  destruct (succeeds_without_target action_name value).
  - destruct H as [msg ->]. cbn. auto.
  - destruct H as (e & -> & Hex). rewrite Hex. cbn. eauto.
Qed.

(** ** The dispatch table *)

(** With a handle as selector, each of the twenty names of the two value
    lists (the value-bearing ones with a non-empty value) makes exactly the
    primitive call of [primitive_of], none for TERMINATE, NONE, SAY and
    MEMORIZE; when the handle answers, the summary is returned and appended
    to the history. *)
Theorem dispatch_table_on_handle :
  forall str_repr target_element h s value element_repr w,
    fst (resolve_target target_element element_repr) = PObj h ->
    mem s no_value_op = true
    \/ (mem s with_value_op = true /\ optstr_truthy value = true) ->
    let er := snd (resolve_target target_element element_repr) in
    let run := perform_action str_repr target_element (Some s) value
                              element_repr w in
    calls (snd run) = calls w ++ calls_of (primitive_of s (optstr_str value)) /\
    ((forall p, h_respond h p = None) ->
     fst run = Return (action_summary str_repr (Some s) er value) /\
     taken_actions (snd run)
     = taken_actions w ++ [action_summary str_repr (Some s) er value]).
Proof.
  intros str_repr target_element h s value element_repr w Hsel Hs er run.
  subst run er. rewrite perform_action_eq, Hsel.
  destruct Hs as [Hs | [Hs Hv]]; apply mem_cases in Hs.
  - cbn [In no_value_op] in Hs.
    repeat (destruct Hs as [<- | Hs];
            [unfold dispatch, bind, call_method; cbn;
             split;
             [ first [ rewrite app_nil_r; reflexivity
                     | (match goal with |- context [h_respond h ?p] =>
                          destruct (h_respond h p) as [e|] end;
                        [destruct (exn_is_Exception e)|]; reflexivity) ]
             | intros Hh; rewrite ?Hh; split; reflexivity ]|]).
    contradiction.
  - cbn [In with_value_op] in Hs.
    repeat (destruct Hs as [<- | Hs];
            [unfold dispatch, bind, call_method; rewrite Hv; cbn;
             split;
             [ first [ rewrite app_nil_r; reflexivity
                     | (match goal with |- context [h_respond h ?p] =>
                          destruct (h_respond h p) as [e|] end;
                        [destruct (exn_is_Exception e)|]; reflexivity) ]
             | intros Hh; rewrite ?Hh; split; reflexivity ]|]).
    contradiction.
Qed.

Lemma dispatch_table_on_handle_witness :
  calls (snd (perform_action plain_repr
                (Some [("selector", PObj page)]) (Some "PRESS PAGEDOWN")
                None "" empty_world))
  = [KeyboardPress "PageDown"]
  /\
  taken_actions
    (snd (perform_action plain_repr
            (Some [("selector", PObj page)]) (Some "GOTO")
            (Some "https://rocq-prover.org") "" empty_world))
  = ["GOTO: No Element -> https://rocq-prover.org"].
Proof.
  split.
  - exact (proj1 (@dispatch_table_on_handle plain_repr
                    (Some [("selector", PObj page)]) page "PRESS PAGEDOWN"
                    None "" empty_world eq_refl (or_introl eq_refl))).
  - exact (proj2 (proj2 (@dispatch_table_on_handle plain_repr
                    (Some [("selector", PObj page)]) page "GOTO"
                    (Some "https://rocq-prover.org") "" empty_world eq_refl
                    (or_intror (conj eq_refl eq_refl)))
                    (fun _ => eq_refl))).
Defined.

(** ** Successive updates of the action space *)

(** After any run of [update_action_space] calls the action space is the
    last argument that was a list of strings, or the space before the run
    when there is none; each call writes one log record, no call raises, and
    the history, the call trace and the file system are left alone. *)
Theorem update_action_space_last_valid_wins :
  forall updates w,
    let run := for_each updates update_action_space w in
    fst run = Return tt /\
    fst (get_action_space (snd run)) = Return (last_valid (action_space w) updates) /\
    length (logged (snd run)) = length (logged w) + length updates /\
    taken_actions (snd run) = taken_actions w /\
    calls (snd run) = calls w /\
    fs (snd run) = fs w.
Proof.
  induction updates as [|u us IH]; intros w; cbv zeta.
  - cbn. rewrite Nat.add_0_r. repeat split; reflexivity.
  - cbn [for_each last_valid].
    assert (Hu : exists w1,
               update_action_space u w = (Return tt, w1) /\
               action_space w1
               = (if is_list_of_str u then u else action_space w) /\
               length (logged w1) = S (length (logged w)) /\
               taken_actions w1 = taken_actions w /\
               calls w1 = calls w /\ fs w1 = fs w).
    { unfold update_action_space.
      destruct (is_list_of_str u); eexists; (split; [reflexivity|]); cbn;
        rewrite length_app; cbn; rewrite Nat.add_1_r; auto. }
    destruct Hu as (w1 & E & Ha & Hl & Ht & Hc & Hf).
    rewrite (bind_Return _ _ _ E).
    destruct (IH w1) as (I1 & I2 & I3 & I4 & I5 & I6).
    rewrite Ha in I2. rewrite Hl in I3. rewrite Ht in I4.
    rewrite Hc in I5. rewrite Hf in I6.
    repeat split; auto. rewrite I3. cbn [length]. lia.
Qed.

(** ** Saving the history: further properties *)


(** [os.mkdir] and [os.makedirs] write no file and no log record. *)
Lemma mkdir_files path w :
  fs_files (fs (snd (os_mkdir path w))) = fs_files (fs w) /\
  logged (snd (os_mkdir path w)) = logged w.
Proof.
  unfold os_mkdir. destruct (resolve (fs w) path) as [pos|e]; [|now cbn].
  destruct (is_dir (fs w) pos || has_file (fs w) pos); [now cbn|].
  destruct (fs_refuses (fs w) (ReqMkdir (key_of pos))); now cbn.
Qed.

Lemma makedirs_files fuel :
  forall name w,
    fs_files (fs (snd (makedirs_fuel fuel name w))) = fs_files (fs w) /\
    logged (snd (makedirs_fuel fuel name w)) = logged w.
Proof.
  induction fuel as [|fuel IH]; intros name w; cbn [makedirs_fuel].
  - apply mkdir_files.
  - destruct (path_split name) as [head tail].
    destruct (if String.eqb tail "" then path_split head else (head, tail))
      as [head' tail'].
    destruct (negb (String.eqb head' "") && negb (String.eqb tail' "")
              && negb (path_exists head' (fs w))); [|apply mkdir_files].
    specialize (IH head' w).
    destruct (makedirs_fuel fuel head' w) as [[[]|e] w1]; cbn [snd] in IH.
    + destruct (String.eqb tail' "."); [exact IH|].
      destruct (mkdir_files name w1) as [H1 H2]. destruct IH as [I1 I2].
      now rewrite H1, H2.
    + destruct (String.eqb (exn_class e) "FileExistsError"); [|exact IH].
      destruct (String.eqb tail' "."); [exact IH|].
      destruct (mkdir_files name w1) as [H1 H2]. destruct IH as [I1 I2].
      now rewrite H1, H2.
Qed.










(** Without the first save returning, the second save need not leave the
    file system alone: with the save directory [x/..] and no [x], the first
    save creates [x] and then raises [FileExistsError], writing no file;
    the second finds the directory and writes the file. *)
Lemma save_after_failed_save :
  let w := init (mkConfig None (Some (Some "x/.."%string))) [] [] (mkFs [] []) in
  let once := save_action_history default_filename w in
  fst once = Raise (FileExistsError "x/..") /\
  fs_dirs (fs (snd once)) = ["x"%string] /\
  fs_files (fs (snd once)) = [] /\
  fst (save_action_history default_filename (snd once)) = Return tt /\
  fs_files (fs (snd (save_action_history default_filename (snd once))))
  = [("action_history.txt", "")]%string.
Proof. vm_compute. repeat split; reflexivity. Qed.






(** ** Prompt parts *)

Ltac split_name n :=
  repeat match goal with
         | |- context [String.eqb n ?lit] =>
             destruct (String.eqb_spec n lit); [subst n|]
         end.

(** [update_prompt_part] returns [True] exactly for the seven keys of the
    prompt dict.  Then the named part reads back as the new text and every
    other part is unchanged; for any other name the dict is unchanged. *)
Theorem update_prompt_part_lookup :
  forall p name new_text,
    let updated := fst (update_prompt_part p name new_text) in
    snd (update_prompt_part p name new_text)
    = mem name (query_parts ++ referring_parts) /\
    (if snd (update_prompt_part p name new_text)
     then prompt_part updated name = Some new_text
     else updated = p /\ prompt_part p name = None) /\
    (forall other, other <> name ->
                   prompt_part updated other = prompt_part p other).
Proof.
  intros p name new_text updated. subst updated.
  unfold update_prompt_part, prompt_part, mem;
    cbn [existsb app query_parts referring_parts].
  split; [| split].
  - split_name name; reflexivity.
  - split_name name; try reflexivity. cbn [snd fst]. split; reflexivity.
  - intros other Hother.
    split_name name; cbn [fst];
      try (apply String.eqb_neq in Hother; rewrite Hother; reflexivity).
    reflexivity.
Qed.

Lemma update_prompt_part_lookup_witness :
  prompt_part (fst (update_prompt_part _initialize_prompts "action_format"
                                       "ACTION: one of CLICK, TYPE."))
              "value_format"
  = Some initial_value_format.
Proof.
  refine (proj2 (proj2 (update_prompt_part_lookup _initialize_prompts
                   "action_format" "ACTION: one of CLICK, TYPE."))
                "value_format"%string _).
  discriminate.
Defined.

(** Two updates of different parts commute, and of two updates of the same
    part the later one wins. *)
Theorem update_prompt_part_order :
  forall p n1 t1 n2 t2,
    (n1 <> n2 ->
     fst (update_prompt_part (fst (update_prompt_part p n1 t1)) n2 t2)
     = fst (update_prompt_part (fst (update_prompt_part p n2 t2)) n1 t1)) /\
    fst (update_prompt_part (fst (update_prompt_part p n1 t1)) n1 t2)
    = fst (update_prompt_part p n1 t2).
Proof.
  intros p n1 t1 n2 t2. split.
  - intros Hne. unfold update_prompt_part.
    split_name n1; split_name n2; try reflexivity; now elim Hne.
  - unfold update_prompt_part. split_name n1; reflexivity.
Qed.

Lemma update_prompt_part_order_witness :
  fst (update_prompt_part
         (fst (update_prompt_part _initialize_prompts "system_prompt" "You are a tester."))
         "value_format" "VALUE: text")
  = fst (update_prompt_part
           (fst (update_prompt_part _initialize_prompts "value_format" "VALUE: text"))
           "system_prompt" "You are a tester.").
Proof.
  refine (proj1 (update_prompt_part_order _initialize_prompts
                   "system_prompt" "You are a tester."
                   "value_format" "VALUE: text") _).
  discriminate.
Defined.

(** The prompt is always two segments.  The first does not depend on the
    choices nor on an update of a part of the second segment; the second
    does not depend on the task, the previous actions nor on an update of a
    part of the first segment. *)
Theorem generate_prompt_segments :
  forall str_repr p task previous choices name new_text,
    let updated := fst (update_prompt_part p name new_text) in
    length (generate_prompt str_repr p task previous choices) = 2 /\
    (forall choices',
       nth 0 (generate_prompt str_repr p task previous choices') ""%string
       = nth 0 (generate_prompt str_repr p task previous choices) ""%string) /\
    (forall task' previous',
       nth 1 (generate_prompt str_repr p task' previous' choices) ""%string
       = nth 1 (generate_prompt str_repr p task previous choices) ""%string) /\
    (mem name query_parts = false ->
     nth 0 (generate_prompt str_repr updated task previous choices) ""%string
     = nth 0 (generate_prompt str_repr p task previous choices) ""%string) /\
    (mem name referring_parts = false ->
     nth 1 (generate_prompt str_repr updated task previous choices) ""%string
     = nth 1 (generate_prompt str_repr p task previous choices) ""%string).
Proof.
  intros str_repr p task previous choices name new_text updated.
  subst updated.
  split; [reflexivity|]. split; [reflexivity|]. split; [reflexivity|].
  unfold mem; cbn [existsb query_parts referring_parts].
  split; intros H;
    repeat (apply orb_false_iff in H; destruct H as [? H]);
    unfold update_prompt_part;
    repeat match goal with E : String.eqb name _ = false |- _ =>
             rewrite E; clear E end;
    split_name name; reflexivity.
Qed.

Lemma generate_prompt_segments_witness :
  nth 0 (generate_prompt plain_repr
           (fst (update_prompt_part _initialize_prompts "element_format" "ELEMENT: A-Z"))
           (Some "Find X") (PList []) None) ""%string
  = nth 0 (generate_prompt plain_repr _initialize_prompts
             (Some "Find X") (PList []) None) ""%string
  /\
  nth 1 (generate_prompt plain_repr
           (fst (update_prompt_part _initialize_prompts "system_prompt" "Be brief."))
           (Some "Find X") (PList []) None) ""%string
  = nth 1 (generate_prompt plain_repr _initialize_prompts
             (Some "Find X") (PList []) None) ""%string.
Proof.
  split.
  - refine (proj1 (proj2 (proj2 (proj2 (generate_prompt_segments plain_repr
              _initialize_prompts (Some "Find X"%string) (PList []) None
              "element_format" "ELEMENT: A-Z")))) _).
    reflexivity.
  - refine (proj2 (proj2 (proj2 (proj2 (generate_prompt_segments plain_repr
              _initialize_prompts (Some "Find X"%string) (PList []) None
              "system_prompt" "Be brief.")))) _).
    reflexivity.
Defined.

(** ** Choices, line by line *)

Lemma lines_of_last (c : string) :
  has_newline c = false ->
  forall cur, lines_from cur c
              = if String.eqb (cur ++ c) "" then [] else [(cur ++ c)%string].
Proof.
  induction c as [|x c IH]; intros Hc cur.
  - cbn. now rewrite str_app_nil_r.
  - cbn [has_newline] in Hc. apply orb_false_iff in Hc. destruct Hc as [Hx Hc].
    cbn [lines_from]. rewrite Hx, (IH Hc). now rewrite str_app_assoc.
Qed.

(** When no choice contains a line feed and the last choice is not empty,
    the rendered choice list has one line per choice, in the given order. *)
Theorem choices_one_per_line :
  forall c cs,
    Forall (fun x => has_newline x = false) (c :: cs) ->
    last (c :: cs) ""%string <> ""%string ->
    file_lines (choices_str (Some (c :: cs))) = c :: cs.
Proof.
  intros c cs. unfold file_lines. cbn [choices_str].
  revert c. induction cs as [|c' cs IH]; intros c Hnl Hlast.
  - cbn [join]. inversion Hnl as [|? ? Hc _]; subst.
    rewrite lines_of_last by exact Hc. cbn [append last] in *.
    destruct (String.eqb_spec c ""); [contradiction | reflexivity].
  - inversion Hnl as [|? ? Hc Hrest]; subst.
    change (join nl (c :: c' :: cs)) with (c ++ nl ++ join nl (c' :: cs))%string.
    rewrite lines_of_record by exact Hc. cbn [append]. f_equal.
    apply IH; [exact Hrest | exact Hlast].
Qed.

Lemma choices_one_per_line_witness :
  file_lines (choices_str (Some ["A. <button> Buy"; "B. <a> Home"]))
  = ["A. <button> Buy"; "B. <a> Home"]%string.
Proof.
  apply choices_one_per_line.
  - repeat constructor.
  - discriminate.
Defined.

(** ** Validation of a configuration *)

Lemma first_missing_some sections config :
  (exists s, In s sections /\ clookup s config = None) ->
  exists s, first_missing sections config = Some s /\
            In s sections /\ clookup s config = None.
Proof.
  induction sections as [|x sections IH]; intros (s & Hin & Hs).
  - destruct Hin.
  - cbn [first_missing]. destruct (clookup x config) eqn:E.
    + destruct Hin as [-> | Hin]; [congruence|].
      destruct IH as (s' & H1 & H2 & H3); [now exists s|].
      exists s'. cbn [In]. auto.
    + exists x. cbn [In]. auto.
Qed.

(** When one of the four required sections is missing, [validate_config]
    returns [False] and prints one warning, which names a missing section;
    the field checks are not reached. *)
Theorem validate_config_missing_section :
  forall config s,
    In s required_sections ->
    clookup s config = None ->
    exists missing,
      In missing required_sections /\
      clookup missing config = None /\
      validate_config config
      = (["Warning: Missing '" ++ missing ++ "' section in configuration."]%string,
         Return false).
Proof.
  intros config s Hin Hs.
  destruct (@first_missing_some required_sections config) as (m & E & H1 & H2);
    [now exists s|].
  exists m. unfold validate_config. rewrite E. auto.
Qed.

Lemma validate_config_missing_section_witness :
  exists missing,
    In missing required_sections /\
    clookup missing [("basic", CDict []); ("agent", CDict [])] = None /\
    validate_config [("basic", CDict []); ("agent", CDict [])]
    = (["Warning: Missing '" ++ missing ++ "' section in configuration."]%string,
       Return false).
Proof.
  apply (@validate_config_missing_section
           [("basic", CDict []); ("agent", CDict [])] "browser"%string).
  - cbn. auto.
  - reflexivity.
Defined.

Lemma field_violation_table config section d key isinstance_T :
  clookup section config = Some (CDict d) ->
  field_violation config section key isinstance_T
  = Return (negb (field_ok d key isinstance_T)).
Proof.
  intros H. unfold field_violation, field_ok. cbn [cgetitem cin]. rewrite H.
  cbn [cgetitem cin]. now destruct (clookup key d).
Qed.

(** When the four sections are present and [basic], [openai] and [browser]
    are tables, [validate_config] returns without raising, and returns
    [True] exactly when [crawler_max_steps], if present, is an [int] (a
    [bool] counts), [model], if present, is a [str], and [viewport], if
    present, is a dict; it prints one line when it returns [False] and none
    otherwise.  The content of [agent] is not looked at. *)
Theorem validate_config_tables :
  forall config b o br,
    clookup "basic" config = Some (CDict b) ->
    clookup "agent" config <> None ->
    clookup "openai" config = Some (CDict o) ->
    clookup "browser" config = Some (CDict br) ->
    let valid := field_ok b "crawler_max_steps" is_int
                 && field_ok o "model" is_cstr
                 && field_ok br "viewport" is_dict in
    snd (validate_config config) = Return valid /\
    length (fst (validate_config config)) = (if valid then 0 else 1).
Proof.
  intros config b o br Hb Ha Ho Hbr valid. subst valid.
  unfold validate_config. cbn [first_missing required_sections].
  rewrite Hb, Ho, Hbr.
  destruct (clookup "agent" config); [|now elim Ha].
  rewrite (@field_violation_table config "basic" b "crawler_max_steps" is_int Hb),
    (@field_violation_table config "openai" o "model" is_cstr Ho),
    (@field_violation_table config "browser" br "viewport" is_dict Hbr).
  destruct (field_ok b "crawler_max_steps" is_int);
    destruct (field_ok o "model" is_cstr);
    destruct (field_ok br "viewport" is_dict); split; reflexivity.
Qed.

Lemma validate_config_tables_witness :
  snd (validate_config default_config) = Return true /\
  length (fst (validate_config default_config)) = 0.
Proof.
  refine (@validate_config_tables default_config _ _ _ eq_refl _ eq_refl eq_refl).
  discriminate.
Defined.

(** When the four sections are present and [basic] is a number, a boolean
    or another scalar that is not a container, [validate_config] does not
    return: the [in] test raises [TypeError], and nothing is printed. *)
Theorem validate_config_scalar_section :
  forall config v,
    first_missing required_sections config = None ->
    clookup "basic" config = Some v ->
    is_container v = false ->
    exists e,
      validate_config config = ([], Raise e) /\
      exn_class e = "TypeError"%string.
Proof.
  intros config v Hall Hb Hv. unfold validate_config. rewrite Hall.
  unfold field_violation. cbn [cgetitem]. rewrite Hb.
  destruct v; try discriminate Hv; cbn; eexists; split; reflexivity.
Qed.

Lemma validate_config_scalar_section_witness :
  exists e,
    validate_config sample_table = ([], Raise e) /\
    exn_class e = "TypeError"%string.
Proof.
  exact (@validate_config_scalar_section sample_table (CInt 3)
           eq_refl eq_refl eq_refl).
Defined.

(** ** Loading a configuration *)



(** ** Drawing links *)

Lemma remove_first_perm x links :
  In x links -> Permutation links (x :: remove_first x links).
Proof.
  induction links as [|y links IH]; intros Hin; [destruct Hin|].
  cbn [remove_first]. destruct (String.eqb_spec y x) as [-> | Hne].
  - reflexivity.
  - destruct Hin as [-> | Hin]; [now elim Hne|].
    rewrite perm_swap. now apply perm_skip, IH.
Qed.

(** [get_random_link] on an empty list returns [None] and leaves it empty;
    on any other list it returns one of the links and takes exactly one
    occurrence of it out of the list, the first one, so that the list is one
    shorter and nothing else is lost. *)
Theorem get_random_link_takes_one :
  forall draw links,
    match links with
    | [] => get_random_link draw links = (None, [])
    | _ :: _ =>
        exists link,
          get_random_link draw links = (Some link, remove_first link links) /\
          In link links /\
          Permutation links (link :: remove_first link links) /\
          S (length (remove_first link links)) = length links
    end.
Proof.
  intros draw [|y links]; [reflexivity|].
  set (l := y :: links).
  assert (Hlen : length l <> 0) by (subst l; discriminate).
  assert (Hin : In (nth (draw mod length l) l ""%string) l).
  { apply nth_In. now apply Nat.mod_upper_bound. }
  exists (nth (draw mod length l) l ""%string).
  split; [| split; [exact Hin | split]].
  - reflexivity.
  - now apply remove_first_perm.
  - apply remove_first_perm, Permutation_length in Hin. symmetry. exact Hin.
Qed.

(** Successive draws lose and repeat nothing: the links returned together
    with the links left over are a rearrangement of the original list, and
    as many links are left as the draws did not take.  With at least as many
    draws as links the list ends up empty. *)
Theorem crawl_visits_each_link_once :
  forall draws links,
    let results := fst (crawl draws links) in
    let left := snd (crawl draws links) in
    Permutation (visited results ++ left) links /\
    length left = length links - length draws /\
    (length links <= length draws -> left = []).
Proof.
  intros draws links results left. subst results left.
  assert (H : Permutation (visited (fst (crawl draws links))
                           ++ snd (crawl draws links)) links /\
              length (snd (crawl draws links)) = length links - length draws).
  { revert links. induction draws as [|d draws IH]; intros links.
    - cbn. split; [reflexivity | lia].
    - cbn [crawl].
      pose proof (get_random_link_takes_one d links) as Hg.
      destruct links as [|y links].
      + rewrite Hg. destruct (IH []) as [I1 I2].
        destruct (crawl draws []) as [rest final]. cbn in *. split; [exact I1|lia].
      + destruct Hg as (link & -> & _ & Hp & Hl).
        destruct (IH (remove_first link (y :: links))) as [I1 I2].
        destruct (crawl draws (remove_first link (y :: links))) as [rest final].
        cbn [fst snd visited app] in *. split.
        * rewrite Hp. now apply perm_skip.
        * rewrite I2. cbn [length] in *. lia. }
  destruct H as [H1 H2]. split; [exact H1|]. split; [exact H2|].
  intros Hle. apply length_zero_iff_nil. lia.
Qed.

Lemma crawl_visits_each_link_once_witness :
  snd (crawl [7; 7; 7] ["https://a.example"; "https://b.example"]%string) = [].
Proof.
  refine (proj2 (proj2 (crawl_visits_each_link_once [7; 7; 7]
                          ["https://a.example"; "https://b.example"]%string)) _).
  cbn. lia.
Defined.

(** ** Setting up the logger *)

(** [setup_logger] never returns a logger.  When the log directory exists
    it raises [NameError] on the name [logging] and changes nothing; when
    it does not, [os.makedirs] is called first: what that raises
    propagates, and when it returns [NameError] is raised in the world it
    left.  For a plain name with no directory and no file of that name and
    a creation the operating system accepts, the directory is created and
    [NameError] raised.  In every case no file is written and nothing is
    logged. *)
Theorem setup_logger_raises_name_error :
  forall log_dir filename redirect_to_dev_log w,
    let run := setup_logger log_dir filename redirect_to_dev_log w in
    (exists e, fst run = Raise e) /\
    fs_files (fs (snd run)) = fs_files (fs w) /\
    logged (snd run) = logged w /\
    (path_exists log_dir (fs w) = true ->
     run = (Raise (NameError "logging"), w)) /\
    (path_exists log_dir (fs w) = false ->
     forall w1, os_makedirs log_dir w = (Return tt, w1) ->
                run = (Raise (NameError "logging"), w1)) /\
    (path_exists log_dir (fs w) = false ->
     forall e w1, os_makedirs log_dir w = (Raise e, w1) ->
                  run = (Raise e, w1)) /\
    (plain_name log_dir = true ->
     mem log_dir (fs_dirs (fs w)) = false ->
     file_get log_dir (fs_files (fs w)) = None ->
     fs_refuses (fs w) (ReqMkdir log_dir) = None ->
     fst run = Raise (NameError "logging") /\
     fs_dirs (fs (snd run)) = fs_dirs (fs w) ++ [log_dir]).
Proof.
  intros log_dir filename redirect_to_dev_log w run.
  assert (Hrun : run
                 = if path_exists log_dir (fs w)
                   then (Raise (NameError "logging"), w)
                   else match os_makedirs log_dir w with
                        | (Return _, w1) => (Raise (NameError "logging"), w1)
                        | (Raise e, w1) => (Raise e, w1)
                        end).
  { subst run. unfold setup_logger, bind, os_path_exists.
    destruct (path_exists log_dir (fs w)); cbn [negb]; [reflexivity|].
    destruct (os_makedirs log_dir w) as [[[]|e] w1]; reflexivity. }
  pose proof (makedirs_files (String.length log_dir) log_dir w) as Hkeep.
  fold (os_makedirs log_dir) in Hkeep.
  split; [| split; [| split; [| split; [| split; [| split]]]]].
  - rewrite Hrun. destruct (path_exists log_dir (fs w));
      [eexists; reflexivity|].
    destruct (os_makedirs log_dir w) as [[[]|e] w1]; eexists; reflexivity.
  - rewrite Hrun. destruct (path_exists log_dir (fs w)); [reflexivity|].
    destruct (os_makedirs log_dir w) as [[[]|e] w1]; exact (proj1 Hkeep).
  - rewrite Hrun. destruct (path_exists log_dir (fs w)); [reflexivity|].
    destruct (os_makedirs log_dir w) as [[[]|e] w1]; exact (proj2 Hkeep).
  - intros E. now rewrite Hrun, E.
  - intros E w1 Hmk. now rewrite Hrun, E, Hmk.
  - intros E e w1 Hmk. now rewrite Hrun, E, Hmk.
  - intros Hplain Hmem Hfile Hfree.
    assert (E : path_exists log_dir (fs w) = false).
    { unfold path_exists. rewrite (@resolve_plain _ _ Hplain).
      rewrite (@is_dir_plain _ _ Hplain). unfold has_file. cbn [key_of join].
      now rewrite Hmem, Hfile, andb_false_r. }
    rewrite Hrun, E, (@makedirs_plain _ w Hplain). unfold os_mkdir.
    rewrite (@resolve_plain _ _ Hplain), (@is_dir_plain _ _ Hplain).
    unfold has_file. cbn [key_of join]. rewrite Hmem, Hfile, Hfree.
    split; reflexivity.
Qed.

Lemma setup_logger_raises_name_error_witness :
  let run := setup_logger "logs" "agent.log" false empty_world in
  fst run = Raise (NameError "logging") /\
  fs_dirs (fs (snd run)) = ["logs"%string].
Proof.
  intros run.
  exact (proj2 (proj2 (proj2 (proj2 (proj2 (proj2
           (setup_logger_raises_name_error "logs" "agent.log" false
              empty_world))))))
           eq_refl eq_refl eq_refl eq_refl).
Defined.
